(** * Criterion report plotting tools

    A shallow embedding of the four scripts under [tools/]:
    [plot_datetime_bench.py], [plot_duckdb_write_bench.py],
    [plot_sqllog_bench.py] and [plot_sqllog_varied.py].

    Each script walks a Criterion output tree, picks a result file per
    benchmark case, reads one point estimate from it, rescales it to seconds
    by magnitude and hands the collected series to matplotlib.

    - Python values are the values [json.loads] builds; a [dict] is an
      association list in insertion order.
    - Python floats are IEEE binary64 numbers ([PrimFloat.float]).
    - The file system is a tree; [print] and [savefig] are recorded in an
      explicit [world]; exceptions are an error result.
    - Library code the scripts call and do not define is a parameter:
      [float] and [int] on text ([Conversions]), and the text layout of
      Matplotlib ([Matplotlib]). *)

From Stdlib Require Import ZArith List String Ascii Bool Floats Lia.
From Stdlib Require Import DecimalString Sorted Permutation.
Import ListNotations.

Set Warnings "-inexact-float,-register-all".
Local Open Scope string_scope.
Local Open Scope list_scope.

(** ** Python values and built-ins *)

Module Py.

(** What [json.loads] returns.  [JNull] is Python's [None]. *)
Inductive json : Type :=
| JNull
| JBool (b : bool)
| JInt (z : Z)
| JFloat (f : float)
| JStr (s : string)
| JArr (items : list json)
| JObj (fields : list (string * json)).

(** A [dict] keyed by [K]: bindings in insertion order. *)
Definition dict (K V : Type) : Type := list (K * V).

Section Dict.
Context {K V : Type} (eqb : K -> K -> bool).

(** [d[k]] when [k in d]. *)
Fixpoint lookup (k : K) (d : dict K V) : option V :=
  match d with
  | [] => None
  | (k', v) :: d' => if eqb k k' then Some v else lookup k d'
  end.

(** [k in d] *)
Definition contains (k : K) (d : dict K V) : bool :=
  match lookup k d with Some _ => true | None => false end.

(** [d[k] = v]: an existing key keeps its place, a new one goes last. *)
Fixpoint setitem (k : K) (v : V) (d : dict K V) : dict K V :=
  match d with
  | [] => [(k, v)]
  | (k', v') :: d' =>
      if eqb k k' then (k', v) :: d' else (k', v') :: setitem k v d'
  end.

Definition keys (d : dict K V) : list K := map fst d.
Definition values (d : dict K V) : list V := map snd d.
Definition items (d : dict K V) : list (K * V) := d.
End Dict.

Definition sdict (V : Type) : Type := dict string V.
Definition slookup {V} := @lookup string V String.eqb.
Definition scontains {V} := @contains string V String.eqb.
Definition ssetitem {V} := @setitem string V String.eqb.

(** [d.get(k)]: [None] when the key is absent. *)
Definition get (k : string) (d : sdict json) : json :=
  match slookup k d with Some v => v | None => JNull end.

(** [x is None] *)
Definition is_none (v : json) : bool :=
  match v with JNull => true | _ => false end.

(** Exceptions the scripts can end with. *)
Inductive exn : Type :=
| SystemExit (msg : string)
| FileNotFoundError
| NotADirectoryError
| IsADirectoryError
| UnicodeDecodeError
| JSONDecodeError
| RecursionError
| TypeError
| ValueError
| OverflowError
| KeyError
| FileExistsError.

(** The library conversions from text, which the scripts call and do not
    define: [float(s)] and [int(s)] on a [str]; [None] is [ValueError]. *)
Class Conversions : Type := {
  float_of_str : string -> option float;
  int_of_str : string -> option Z
}.

(** [float(n)] on an [int]: the nearest binary64 number, ties to even;
    [OverflowError] when that is out of range. *)
Definition float_of_int (z : Z) : exn + float :=
  match binary_normalize prec emax z 0 false with
  | S754_infinity _ => inl OverflowError
  | sf => inr (SF2Prim sf)
  end.

(** [float(v)] *)
Definition float_of `{Conversions} (v : json) : exn + float :=
  match v with
  | JFloat f => inr f
  | JInt z => float_of_int z
  | JBool b => inr (if b then 1%float else 0%float)
  | JStr s =>
      match float_of_str s with
      | Some f => inr f
      | None => inl ValueError
      end
  | JNull | JArr _ | JObj _ => inl TypeError
  end.

(** [str(n)] on an [int] *)
Definition str_of_int (z : Z) : string :=
  NilZero.string_of_int (Z.to_int z).

(** [sorted(l, key=key)]: stable, ascending for [leb]. *)
Section Sorted.
Context {A K : Type} (key : A -> K) (leb : K -> K -> bool).

Fixpoint insert (x : A) (l : list A) : list A :=
  match l with
  | [] => [x]
  | y :: l' => if leb (key x) (key y) then x :: l else y :: insert x l'
  end.

Definition sorted (l : list A) : list A := fold_right insert [] l.
End Sorted.

End Py.
Import Py.

(** ** The file system the scripts read

    A tree below the working directory, without permissions or I/O errors.
    A file carries what [json.loads(p.read_text(encoding='utf-8'))] makes of
    its bytes: the document, or the way in which the call fails. *)

Module Fs.

Inductive content : Type :=
| Json (doc : json)   (* UTF-8 text that is a JSON document *)
| NotUtf8             (* [read_text] raises [UnicodeDecodeError] *)
| NotJson             (* [json.loads] raises [JSONDecodeError] *)
| TooDeep.            (* [json.loads] raises [RecursionError] *)

Inductive node : Type :=
| File (c : content)
| Dir (entries : list (string * node)).

(** A relative [Path], by components. *)
Definition path : Type := list string.

(** [str(p)] *)
Definition path_str (p : path) : string := String.concat "/" p.

Fixpoint resolve (n : node) (p : path) : option node :=
  match p with
  | [] => Some n
  | c :: p' =>
      match n with
      | Dir entries =>
          match slookup c entries with
          | Some n' => resolve n' p'
          | None => None
          end
      | File _ => None
      end
  end.

(** [p.exists()] *)
Definition exists_ (cwd : node) (p : path) : bool :=
  match resolve cwd p with Some _ => true | None => false end.

(** [p.is_dir()] *)
Definition is_dir (cwd : node) (p : path) : bool :=
  match resolve cwd p with Some (Dir _) => true | _ => false end.

(** [p.iterdir()]: the children's names, in the order the directory lists
    them. *)
Definition iterdir (cwd : node) (p : path) : exn + list string :=
  match resolve cwd p with
  | Some (Dir entries) => inr (keys entries)
  | Some (File _) => inl NotADirectoryError
  | None => inl FileNotFoundError
  end.

(** [json.loads(p.read_text(encoding='utf-8'))] *)
Definition read_json (cwd : node) (p : path) : exn + json :=
  match resolve cwd p with
  | Some (File (Json doc)) => inr doc
  | Some (File NotUtf8) => inl UnicodeDecodeError
  | Some (File NotJson) => inl JSONDecodeError
  | Some (File TooDeep) => inl RecursionError
  | Some (Dir _) => inl IsADirectoryError
  | None => inl FileNotFoundError
  end.

(** [p.mkdir(parents=True, exist_ok=True)]: fails only on a file in the way. *)
Fixpoint mkdir_parents (n : node) (p : path) : exn + unit :=
  match n with
  | File _ => inl match p with [] => FileExistsError | _ => NotADirectoryError end
  | Dir entries =>
      match p with
      | [] => inr tt
      | c :: p' =>
          match slookup c entries with
          | Some n' => mkdir_parents n' p'
          | None => inr tt
          end
      end
  end.

End Fs.
Import Fs.

(** ** Effects: printed lines, saved figures, exceptions *)

Module Run.

(** One [plt.plot(xs, ys, marker='o', label=...)] call. *)
Record line : Type := { label : option string; xs : list Z; ys : list float }.

(** What the figure holds when [plt.savefig] is called. *)
Inductive chart : Type :=
| Bar (names : list string) (vals : list float)
| Lines (log_x : bool) (lines : list line).

Record world : Type := {
  stdout : list string;
  images : list (path * chart)
}.

Definition start : world := {| stdout := []; images := [] |}.

(** A computation: runs in a world, ends with a value or an exception. *)
Definition M (A : Type) : Type := world -> world * (exn + A).

Definition ret {A} (a : A) : M A := fun w => (w, inr a).

Definition bind {A B} (c : M A) (k : A -> M B) : M B :=
  fun w =>
    match c w with
    | (w', inr a) => k a w'
    | (w', inl e) => (w', inl e)
    end.

Definition raise {A} (e : exn) : M A := fun w => (w, inl e).

Definition lift {A} (r : exn + A) : M A := fun w => (w, r).

(** [print(...)]: one line on standard output. *)
Definition print (s : string) : M unit :=
  fun w => ({| stdout := stdout w ++ [s]; images := images w |}, inr tt).

(** [plt.savefig(out, dpi=150)] *)
Definition savefig (cwd : node) (out : path) (c : chart) : M unit :=
  fun w =>
    if is_dir cwd out then (w, inl IsADirectoryError)
    else ({| stdout := stdout w; images := images w ++ [(out, c)] |}, inr tt).

(** Matplotlib lays a text out as math when it holds an even, non-zero
    number of unescaped dollar signs, and raises [ValueError] when the math
    does not parse.  The parser is the library's: [draws s] says that the
    text [s] can be laid out. *)
Class Matplotlib : Type := { draws : string -> bool }.

(** [plt.tight_layout()] on a figure whose tick labels are [labels]: the
    first call that lays the texts of the figure out.  The titles, axis
    labels and legend entries of the scripts are literals without a dollar
    sign, which are laid out as plain text. *)
Definition tight_layout `{Matplotlib} (labels : list string) : M unit :=
  if forallb draws labels then ret tt else raise ValueError.

(** The process exit status: an uncaught exception ends the run with 1
    ([SystemExit] with a message too), a finished script with 0. *)
Definition exit_status {A} (r : exn + A) : Z :=
  match r with inl _ => 1 | inr _ => 0 end.

End Run.
Import Run.

Notation "x <- c ;; k" := (bind c (fun x => k))
  (at level 61, c at next level, right associativity).
Notation "c ;;; k" := (bind c (fun _ => k))
  (at level 61, right associativity).

(** ** The pipeline every script inlines *)

Module Pipeline.

(** *** Result locator

    [[
    p = case / 'base' / 'estimates.json'
    if not p.exists():
        p = case / 'new' / 'benchmark.json'
    if not p.exists():
        ...   # the case has no result file
    ]] *)
Definition primary (case : path) : path := case ++ ["base"; "estimates.json"].
Definition secondary (case : path) : path := case ++ ["new"; "benchmark.json"].

Definition locate (cwd : node) (case : path) : option path :=
  let p := primary case in
  let p := if negb (exists_ cwd p) then secondary case else p in
  if negb (exists_ cwd p) then None else Some p.

(** *** Estimate extractor

    [[
    median = None
    if isinstance(data, dict):
        if 'median' in data and isinstance(data['median'], dict):
            median = data['median'].get('point_estimate')
        elif 'mean' in data and isinstance(data['mean'], dict):
            median = data['mean'].get('point_estimate')
        else:
            for v in data.values():
                if isinstance(v, dict) and 'point_estimate' in v:
                    median = v['point_estimate']
                    break
    ]] *)

(** The [for v in data.values()] loop with its [break]. *)
Fixpoint scan_values (vs : list json) : json :=
  match vs with
  | [] => JNull
  | JObj o :: rest =>
      if scontains "point_estimate" o then get "point_estimate" o
      else scan_values rest
  | _ :: rest => scan_values rest
  end.

Definition extract (data : json) : json :=
  match data with
  | JObj d =>
      match slookup "median" d with
      | Some (JObj m) => get "point_estimate" m
      | _ =>
          match slookup "mean" d with
          | Some (JObj m) => get "point_estimate" m
          | _ => scan_values (values d)
          end
      end
  | _ => JNull
  end.

(** *** Unit normalizer

    [[
    if t > 1e6:
        t = t / 1e9
    elif t > 1e3:
        t = t / 1e6
    ]] *)
Definition normalize (t : float) : float :=
  if (1e6 <? t)%float then (t / 1e9)%float
  else if (1e3 <? t)%float then (t / 1e6)%float
  else t.

End Pipeline.
Import Pipeline.

(** ** The extractor's ordered preference, as the specification words it

    First match wins: a dict-valued top-level ["median"], else a dict-valued
    top-level ["mean"], else the first top-level value in insertion order
    that is a dict with a ["point_estimate"] key, else nothing. *)

Module Spec.

Definition dict_valued (k : string) (d : sdict json) : Prop :=
  exists m, slookup k d = Some (JObj m).

(** [isinstance(v, dict) and 'point_estimate' in v] *)
Definition has_point_estimate (v : json) : bool :=
  match v with
  | JObj o => scontains "point_estimate" o
  | _ => false
  end.

Inductive estimate (d : sdict json) : json -> Prop :=
| from_median m :
    slookup "median" d = Some (JObj m) ->
    estimate d (get "point_estimate" m)
| from_mean m :
    ~ dict_valued "median" d ->
    slookup "mean" d = Some (JObj m) ->
    estimate d (get "point_estimate" m)
| from_first before k o after :
    ~ dict_valued "median" d ->
    ~ dict_valued "mean" d ->
    d = before ++ (k, JObj o) :: after ->
    Forall (fun kv => has_point_estimate (snd kv) = false) before ->
    scontains "point_estimate" o = true ->
    estimate d (get "point_estimate" o)
| unresolved :
    ~ dict_valued "median" d ->
    ~ dict_valued "mean" d ->
    Forall (fun kv => has_point_estimate (snd kv) = false) d ->
    estimate d JNull.

End Spec.

(** ** tools/plot_datetime_bench.py *)

Module Datetime.

Definition root : path := ["target"; "criterion"; "datetime_validation"].
Definition out_dir : path := ["docs"; "bench_results"].
Definition out : path := out_dir ++ ["datetime_validation.png"].

Section Script.
Context {conv : Conversions} {mpl : Matplotlib} (cwd : node).

(** [[p.name for p in root.iterdir() if p.is_dir() and p.name != 'report']] *)
Definition sub_benches (children : list string) : list string :=
  filter (fun n => is_dir cwd (root ++ [n]) && negb (n =? "report")) children.

(** The [for name in bench_names] loop; [results] is the dict it fills. *)
Fixpoint collect (names : list string) (results : sdict float)
  : M (sdict float) :=
  match names with
  | [] => ret results
  | name :: rest =>
      match locate cwd (root ++ [name]) with
      | None => print ("Missing estimates for " ++ name) ;;; collect rest results
      | Some p =>
          data <- lift (read_json cwd p) ;;
          let median := extract data in
          if is_none median then
            print ("Could not find median for " ++ name) ;;; collect rest results
          else
            t <- lift (float_of median) ;;
            collect rest (ssetitem name (normalize t) results)
      end
  end.

(** [[results[n] for n in names]] *)
Fixpoint getitems (results : sdict float) (names : list string)
  : exn + list float :=
  match names with
  | [] => inr []
  | n :: names' =>
      match slookup n results, getitems results names' with
      | Some v, inr vs => inr (v :: vs)
      | None, _ => inl KeyError
      | _, inl e => inl e
      end
  end.

(** The script.  The bar names are the tick labels of the figure, the only
    texts in it that come from the input. *)
Definition main : M unit :=
  if negb (exists_ cwd root) then
    raise (SystemExit ("Criterion output directory not found: " ++ path_str root))
  else
    children <- lift (iterdir cwd root) ;;
    let bench_names := sorted id String.leb (sub_benches children) in
    results <- collect bench_names [] ;;
    lift (mkdir_parents cwd out_dir) ;;;
    let names := keys results in
    vals <- lift (getitems results names) ;;
    tight_layout names ;;;
    savefig cwd out (Bar names vals) ;;;
    print ("Wrote " ++ path_str out).

End Script.
End Datetime.

(** ** tools/plot_sqllog_bench.py *)

Module SqllogBench.

Definition root : path := ["target"; "criterion"; "sqllog_from_file_1m"].
Definition out_dir : path := ["docs"; "bench_results"].
Definition out : path := out_dir ++ ["sqllog_from_file_1m.png"].

Section Script.
Context {conv : Conversions} (cwd : node).

(** The one tick label is a literal, so [plt.tight_layout()] has plain text
    to lay out. *)
Definition main : M unit :=
  if negb (exists_ cwd root) then
    raise (SystemExit ("Criterion output directory not found: " ++ path_str root))
  else
    match locate cwd root with
    | None => raise (SystemExit ("No estimates found in " ++ path_str root))
    | Some p =>
        data <- lift (read_json cwd p) ;;
        let median := extract data in
        if is_none median then
          raise (SystemExit "Could not find median in estimates")
        else
          t <- lift (float_of median) ;;
          let t := normalize t in
          lift (mkdir_parents cwd out_dir) ;;;
          savefig cwd out (Bar ["sqllog_from_file_1m"] [t]) ;;;
          print ("Wrote " ++ path_str out)
    end.

End Script.
End SqllogBench.

(** ** tools/plot_duckdb_write_bench.py *)

Module Duckdb.

Definition root : path := ["target"; "criterion"; "duckdb_write_modes"].
Definition modes : list string := ["appender_direct"; "in_memory_ctas"; "csv_copy"].
Definition sizes : list Z := [10000; 50000; 200000]%Z.
Definition out_dir : path := ["docs"; "bench_results"].
Definition out_path : path := out_dir ++ ["duckdb_write_modes.png"].

(** [results]: per mode, a dict from size to time. *)
Definition table : Type := sdict (dict Z float).

(** [{m: {} for m in modes}] *)
Definition empty_table (ms : list string) : table :=
  fold_left (fun r m => ssetitem m [] r) ms [].

(** [results[m][s] = v] *)
Definition set2 (m : string) (s : Z) (v : float) (results : table)
  : exn + table :=
  match slookup m results with
  | Some inner => inr (ssetitem m (setitem Z.eqb s v inner) results)
  | None => inl KeyError
  end.

Section Script.
Context {conv : Conversions} (cwd : node).

(** The [for s in sizes] loop of one mode. *)
Fixpoint collect_sizes (m : string) (ss : list Z) (results : table) : M table :=
  match ss with
  | [] => ret results
  | s :: rest =>
      match locate cwd (root ++ [m; str_of_int s]) with
      | None =>
          print ("Missing file for " ++ m ++ " " ++ str_of_int s) ;;;
          collect_sizes m rest results
      | Some p =>
          data <- lift (read_json cwd p) ;;
          let median := extract data in
          if is_none median then
            print ("Could not find median for " ++ m ++ " " ++ str_of_int s) ;;;
            collect_sizes m rest results
          else
            t <- lift (float_of median) ;;
            results' <- lift (set2 m s t results) ;;
            collect_sizes m rest results'
      end
  end.

(** The [for m in modes] loop around it. *)
Fixpoint collect (ms : list string) (ss : list Z) (results : table) : M table :=
  match ms with
  | [] => ret results
  | m :: rest =>
      results' <- collect_sizes m ss results ;;
      collect rest ss results'
  end.

(** [for s, t in list(results[m].items())]: the second pass, which rescales
    the stored times in place. *)
Fixpoint rescale_items (m : string) (its : list (Z * float)) (results : table)
  : exn + table :=
  match its with
  | [] => inr results
  | (s, t) :: rest =>
      if (1e6 <? t)%float then
        match set2 m s (t / 1e9)%float results with
        | inr results' => rescale_items m rest results'
        | inl e => inl e
        end
      else if (1e3 <? t)%float then
        match set2 m s (t / 1e6)%float results with
        | inr results' => rescale_items m rest results'
        | inl e => inl e
        end
      else rescale_items m rest results
  end.

Fixpoint rescale (ms : list string) (results : table) : exn + table :=
  match ms with
  | [] => inr results
  | m :: rest =>
      match slookup m results with
      | None => inl KeyError
      | Some inner =>
          match rescale_items m (items inner) results with
          | inr results' => rescale rest results'
          | inl e => inl e
          end
      end
  end.

(** [[results[m][x] for x in xs]] *)
Fixpoint getitems (inner : dict Z float) (xs : list Z) : exn + list float :=
  match xs with
  | [] => inr []
  | x :: xs' =>
      match lookup Z.eqb x inner, getitems inner xs' with
      | Some v, inr vs => inr (v :: vs)
      | None, _ => inl KeyError
      | _, inl e => inl e
      end
  end.

(** The drawing loop: one line per mode, sizes ascending. *)
Fixpoint draw (ms : list string) (results : table) : exn + list line :=
  match ms with
  | [] => inr []
  | m :: rest =>
      match slookup m results with
      | None => inl KeyError
      | Some inner =>
          let xs := sorted id Z.leb (keys inner) in
          match getitems inner xs, draw rest results with
          | inr ys, inr ls => inr ({| label := Some m; xs := xs; ys := ys |} :: ls)
          | inl e, _ => inl e
          | _, inl e => inl e
          end
      end
  end.

(** The script, for any list of modes and sizes. *)
Definition run (ms : list string) (ss : list Z) : M unit :=
  if negb (exists_ cwd root) then
    raise (SystemExit ("Criterion output directory not found: " ++ path_str root))
  else
    results <- collect ms ss (empty_table ms) ;;
    results <- lift (rescale ms results) ;;
    lift (mkdir_parents cwd out_dir) ;;;
    ls <- lift (draw ms results) ;;
    savefig cwd out_path (Lines true ls) ;;;
    print ("Wrote " ++ path_str out_path).

Definition main : M unit := run modes sizes.

End Script.
End Duckdb.

(** ** tools/plot_sqllog_varied.py *)

Module Varied.

Definition root : path := ["target"; "criterion"].
Definition groups : list string := ["sqllog_write_file"; "sqllog_parse_file"].
Definition out_dir : path := ["docs"; "bench_results"].

Section Script.
Context {conv : Conversions} (cwd : node).

(** [[
    try:
        sizes.append(int(d.name))
    except:
        sizes.append(len(sizes))
    ]] *)
Definition append_size (name : string) (sizes : list Z) : list Z :=
  match int_of_str name with
  | Some n => sizes ++ [n]
  | None => sizes ++ [Z.of_nat (List.length sizes)]
  end.

(** The [for d in sorted(base.iterdir(), key=lambda p: p.name)] loop. *)
Fixpoint series_loop (base : path) (ds : list string)
    (sizes : list Z) (vals : list float) : M (list Z * list float) :=
  match ds with
  | [] => ret (sizes, vals)
  | d :: rest =>
      if negb (is_dir cwd (base ++ [d])) then series_loop base rest sizes vals
      else
        match locate cwd (base ++ [d]) with
        | None => series_loop base rest sizes vals
        | Some est =>
            data <- lift (read_json cwd est) ;;
            let median := extract data in
            if is_none median then series_loop base rest sizes vals
            else
              t <- lift (float_of median) ;;
              let t := normalize t in
              series_loop base rest (append_size d sizes) (vals ++ [t])
        end
  end.

(** The order the loop visits a group's entries in. *)
Definition visit_order (children : list string) : list string :=
  sorted id String.leb children.

Definition extract_series (group_name : string)
  : M (option (list Z * list float)) :=
  let base := root ++ [group_name] in
  if negb (exists_ cwd base) then
    print ("No group " ++ group_name) ;;; ret None
  else
    children <- lift (iterdir cwd base) ;;
    series <- series_loop base (visit_order children) [] [] ;;
    ret (Some series).

(** The [for group in [...]] loop. *)
Fixpoint plot_groups (gs : list string) : M unit :=
  match gs with
  | [] => ret tt
  | group :: rest =>
      series <- extract_series group ;;
      match series with
      | None => plot_groups rest
      | Some (sizes, vals) =>
          let out := out_dir ++ [(group ++ ".png")%string] in
          savefig cwd out
            (Lines true [{| label := None; xs := sizes; ys := vals |}]) ;;;
          print ("Wrote " ++ path_str out) ;;;
          plot_groups rest
      end
  end.

Definition main : M unit :=
  if negb (exists_ cwd root) then
    raise (SystemExit ("Criterion output directory not found: " ++ path_str root))
  else
    lift (mkdir_parents cwd out_dir) ;;;
    plot_groups groups.

End Script.
End Varied.

(** ** What becomes of a benchmark case *)

Module Outcome.

Section Case.
Context {conv : Conversions} (cwd : node) (case : path).

(** Neither result file exists. *)
Definition no_result_file : Prop := locate cwd case = None.

(** A result file was read, and the extractor found no estimate in it. *)
Definition no_point_estimate : Prop :=
  exists p doc,
    locate cwd case = Some p /\ read_json cwd p = inr doc /\
    is_none (extract doc) = true.

(** A result file was read and its estimate is the float [t]. *)
Definition measured (t : float) : Prop :=
  exists p doc,
    locate cwd case = Some p /\ read_json cwd p = inr doc /\
    is_none (extract doc) = false /\ float_of (extract doc) = inr t.

(** A result file was found and using it raised [e]: reading or decoding it
    fails, or its estimate does not convert to a float. *)
Definition unreadable (e : exn) : Prop :=
  exists p,
    locate cwd case = Some p /\
    (read_json cwd p = inl e \/
     exists doc,
       read_json cwd p = inr doc /\ is_none (extract doc) = false /\
       float_of (extract doc) = inl e).

End Case.


Section Tables.
Context {conv : Conversions} (cwd : node).


(** After the first pass of [plot_duckdb_write_bench]: every stored time is
    the raw estimate of its case, and no size is stored twice. *)
Definition raw_table (results : Duckdb.table) : Prop :=
  forall m inner,
    slookup m results = Some inner ->
    NoDup (keys inner) /\
    forall s v, lookup Z.eqb s inner = Some v ->
                measured cwd (Duckdb.root ++ [m; str_of_int s]) v.

End Tables.

Section Benches.
Context {conv : Conversions} (cwd : node).

(** How the loop of [plot_datetime_bench] accounts for the benches it
    visits, in order: a bench with an estimate becomes a bar; a bench without
    a result file, or without an estimate in it, becomes one printed line. *)
Inductive accounted : list string -> list string -> list string -> Prop :=
| accounted_nil : accounted [] [] []
| accounted_bar name t rest bars logs :
    measured cwd (Datetime.root ++ [name]) t ->
    accounted rest bars logs ->
    accounted (name :: rest) (name :: bars) logs
| accounted_missing name rest bars logs :
    no_result_file cwd (Datetime.root ++ [name]) ->
    accounted rest bars logs ->
    accounted (name :: rest) bars
      (("Missing estimates for " ++ name)%string :: logs)
| accounted_no_median name rest bars logs :
    no_point_estimate cwd (Datetime.root ++ [name]) ->
    accounted rest bars logs ->
    accounted (name :: rest) bars
      (("Could not find median for " ++ name)%string :: logs).

End Benches.

(** Only the secondary layout is on disk, and it holds the document [doc]. *)
Definition only_secondary (cwd : node) (case : path) (doc : json) : Prop :=
  exists_ cwd (primary case) = false /\
  resolve cwd (secondary case) = Some (File (Json doc)).

(** The world after one more printed line. *)
Definition logged (line : string) (w : world) : world :=
  {| stdout := stdout w ++ [line]; images := images w |}.

(** A dict with [normalize] applied to every value. *)
Definition normalized {K} (d : dict K float) : dict K float :=
  map (fun kv => (fst kv, normalize (snd kv))) d.

(** Where [plot_sqllog_varied] saves the chart of a group, and what it
    prints for the group. *)
Definition group_image (group : string) : path :=
  Varied.out_dir ++ [(group ++ ".png")%string].

Definition group_line (cwd : node) (group : string) : string :=
  if exists_ cwd (Varied.root ++ [group])
  then "Wrote " ++ path_str (group_image group)
  else "No group " ++ group.

(** What the root check exits with. *)
Definition root_message (root : path) : string :=
  "Criterion output directory not found: " ++ path_str root.

(** The computation never ends in [SystemExit]. *)
Definition never_exits {A} (c : M A) : Prop :=
  forall w msg, snd (c w) <> inl (SystemExit msg).

End Outcome.
Import Outcome.

(** ** Concrete inputs used in the examples below *)

Module Examples.

(** A plain decimal numeral, as in the directory names ["10000"], ["50000"]. *)
Definition digit (c : ascii) : option Z :=
  let n := Z.of_nat (nat_of_ascii c) in
  if ((48 <=? n) && (n <=? 57))%Z then Some (n - 48)%Z else None.

Fixpoint numeral (s : string) (acc : Z) : option Z :=
  match s with
  | EmptyString => Some acc
  | String c s' =>
      match digit c with
      | Some n => numeral s' (10 * acc + n)
      | None => None
      end
  end.

(** Conversions that know plain decimal numerals only.  [int] and [float]
    agree with them on every name and document used below: the names are
    numerals or words without digits, and no estimate is a JSON string. *)
Definition numerals_only : Conversions := {|
  float_of_str _ := None;
  int_of_str s := match s with EmptyString => None | _ => numeral s 0 end
|}.

(** A Matplotlib known to lay out plain text only: a text draws when it
    holds no dollar sign, and no other text is taken to draw.  The library
    agrees on every name used below: words without a dollar sign, which it
    draws, and ["$$"], an empty formula, which it rejects. *)
Fixpoint has_dollar (s : string) : bool :=
  match s with
  | EmptyString => false
  | String c s' => (c =? "$")%char || has_dollar s'
  end.

Definition plain_text_only : Matplotlib := {|
  draws s := negb (has_dollar s)
|}.

(** An [estimates.json] as Criterion writes it. *)
Definition estimates (mean median : json) : json :=
  JObj [("mean", JObj [("confidence_interval", JObj []); ("point_estimate", mean)]);
        ("median", JObj [("confidence_interval", JObj []); ("point_estimate", median)])].

(** A case directory holding [base/estimates.json]. *)
Definition case_base (doc : json) : node :=
  Dir [("base", Dir [("estimates.json", File (Json doc))])].

(** A case directory holding only [new/benchmark.json]. *)
Definition case_new (doc : json) : node :=
  Dir [("new", Dir [("benchmark.json", File (Json doc))])].

(** A working directory with [target/criterion/<group>] for each group. *)
Definition criterion (groups : list (string * node)) : node :=
  Dir [("target", Dir [("criterion", Dir groups)])].

(** [sqllog_from_file_1m] exists and holds no result file. *)
Definition bench_without_file : node :=
  criterion [("sqllog_from_file_1m", Dir [("report", Dir [])])].

(** [sqllog_from_file_1m] holds a result file without any point estimate. *)
Definition bench_without_estimate : node :=
  criterion [("sqllog_from_file_1m",
              case_base (JObj [("median", JObj [("standard_error", JFloat 0.25)])]))].

(** [target/criterion] exists; neither sweep group was ever run. *)
Definition no_sweep_groups : node :=
  criterion [("datetime_validation", Dir [])].

(** One [datetime_validation] bench, written in the [new/] layout only. *)
Definition new_layout_only : node :=
  criterion [("datetime_validation",
              Dir [("custom_valid",
                    case_new (estimates (JFloat 4350.5) (JInt 4200)))])].

(** A sweep group as Criterion lays it out: one directory per size, plus
    the [report] directory. *)
Definition sweep_group : node :=
  criterion [("sqllog_write_file",
              Dir [("10000", case_base (estimates (JFloat 0.011) (JFloat 0.01)));
                   ("50000", case_base (estimates (JFloat 0.052) (JFloat 0.05)));
                   ("200000", case_base (estimates (JFloat 0.21) (JFloat 0.2)));
                   ("report", Dir [("index.html", File NotJson)])])].

(** A sweep group whose cases are named by words, with Criterion's
    [report] directory among them. *)
Definition sweep_with_words : node :=
  criterion [("sqllog_write_file",
              Dir [("small", case_base (estimates (JFloat 0.012) (JFloat 0.01)));
                   ("report", Dir [("index.html", File NotJson)]);
                   ("large", case_base (estimates (JFloat 0.3) (JFloat 0.25)))])].


(** A [datetime_validation] tree: two benches with results, one that never
    ran, and the report directory. *)
Definition three_benches : node :=
  criterion [("datetime_validation",
              Dir [("regex_valid", case_base (estimates (JFloat 880.5) (JFloat 875.0)));
                   ("report", Dir [("index.html", File NotJson)]);
                   ("custom_valid", case_new (estimates (JFloat 4350.5) (JInt 4200)));
                   ("chrono_valid", Dir [])])].

(** A bench whose result file exists and is not UTF-8 text. *)
Definition broken_bench : node :=
  criterion [("datetime_validation",
              Dir [("custom_valid", case_base (estimates (JFloat 0.5) (JFloat 0.4)));
                   ("regex_valid",
                    Dir [("base", Dir [("estimates.json", File NotUtf8)])])])].

(** A bench whose directory is named by an empty formula. *)
Definition dollar_bench : node :=
  criterion [("datetime_validation",
              Dir [("regex_valid", case_base (estimates (JFloat 0.5) (JFloat 0.4)));
                   ("$$", case_base (estimates (JFloat 0.3) (JFloat 0.2)))])].

(** The single benchmark of [plot_sqllog_bench], measured in nanoseconds. *)
Definition one_bench : node :=
  criterion [("sqllog_from_file_1m",
              case_base (estimates (JFloat 2600000000) (JInt 2500000000)))].

(** A [duckdb_write_modes] tree: [appender_direct] ran at every size, in
    nanoseconds, microseconds and seconds; [csv_copy] ran at one size;
    [in_memory_ctas] never ran. *)
Definition write_modes : node :=
  criterion [("duckdb_write_modes",
              Dir [("csv_copy",
                    Dir [("50000", case_new (estimates (JFloat 0.31) (JFloat 0.3)))]);
                   ("appender_direct",
                    Dir [("200000", case_base (estimates (JInt 2600000000) (JInt 2500000000)));
                         ("10000", case_base (estimates (JFloat 0.0038) (JFloat 0.0037)));
                         ("50000", case_base (estimates (JInt 4300) (JInt 4200)))])])].

(** A table as the first pass of [plot_duckdb_write_bench] leaves it. *)
Definition raw_times : Duckdb.table :=
  [("appender_direct",
    [(10000%Z, 0.0037%float); (50000%Z, 4200%float);
     (200000%Z, 2500000000%float)]);
   ("csv_copy", [(50000%Z, 4200%float)])].

End Examples.
Import Examples.

(** * Properties *)

(** ** Dictionaries *)

Lemma scontains_true {V} k (d : sdict V) :
  scontains k d = true <-> exists v, slookup k d = Some v.
Proof.
  unfold scontains, contains, slookup.
  destruct (lookup String.eqb k d); split; eauto; try discriminate.
  intros [v Hv]; discriminate.
Qed.

Lemma get_lookup k d v : slookup k d = Some v -> get k d = v.
Proof. unfold get; now intros ->. Qed.

Lemma get_absent k d : slookup k d = None -> get k d = JNull.
Proof. unfold get; now intros ->. Qed.

(** ** Estimate extractor *)

Lemma scan_values_none (d : sdict json) :
  Forall (fun kv => Spec.has_point_estimate (snd kv) = false) d ->
  scan_values (values d) = JNull.
Proof.
  induction 1 as [|[k v] d Hv _ IH]; simpl; [reflexivity|].
  destruct v; simpl in *; auto. now rewrite Hv.
Qed.

Lemma scan_values_first (before after : sdict json) k o :
  Forall (fun kv => Spec.has_point_estimate (snd kv) = false) before ->
  scontains "point_estimate" o = true ->
  scan_values (values (before ++ (k, JObj o) :: after)) = get "point_estimate" o.
Proof.
  intros Hb Ho. induction Hb as [|[k' v] b Hv _ IH]; simpl.
  - now rewrite Ho.
  - destruct v; simpl in *; auto. now rewrite Hv.
Qed.

(** The scan either finds a first dict holding the key or sees none. *)
Lemma scan_values_cases (d : sdict json) :
  Forall (fun kv => Spec.has_point_estimate (snd kv) = false) d \/
  exists before k o after,
    d = before ++ (k, JObj o) :: after /\
    Forall (fun kv => Spec.has_point_estimate (snd kv) = false) before /\
    scontains "point_estimate" o = true.
Proof.
  induction d as [|[k v] d IH]; [left; constructor|].
  destruct (Spec.has_point_estimate v) eqn:Hv.
  - right. destruct v; simpl in Hv; try discriminate.
    exists [], k, fields, d. repeat split; auto.
  - destruct IH as [IH|(b & k' & o & a & -> & Hb & Ho)].
    + left. constructor; auto.
    + right. exists ((k, v) :: b), k', o, a. repeat split; auto.
Qed.

Lemma extract_not_median_mean d :
  ~ Spec.dict_valued "median" d -> ~ Spec.dict_valued "mean" d ->
  extract (JObj d) = scan_values (values d).
Proof.
  unfold Spec.dict_valued, extract. intros Hmed Hmean.
  destruct (slookup "median" d) as [[]|]; try solve [exfalso; apply Hmed; eauto];
    destruct (slookup "mean" d) as [[]|]; try solve [exfalso; apply Hmean; eauto];
    reflexivity.
Qed.

Lemma extract_mean d m :
  ~ Spec.dict_valued "median" d -> slookup "mean" d = Some (JObj m) ->
  extract (JObj d) = get "point_estimate" m.
Proof.
  unfold Spec.dict_valued, extract. intros Hmed ->.
  destruct (slookup "median" d) as [[]|]; try reflexivity.
  exfalso; apply Hmed; eauto.
Qed.

Lemma dict_valued_dec k d : Spec.dict_valued k d \/ ~ Spec.dict_valued k d.
Proof.
  unfold Spec.dict_valued.
  destruct (slookup k d) as [[]|]; try (right; intros [m Hm]; discriminate).
  left; eauto.
Qed.

(** C1: on a dict, the extractor returns what the ordered preference picks
    (median's point estimate, else mean's, else that of the first top-level
    dict holding one, else [None]), and the preference picks nothing else. *)
Theorem extract_ordered_preference (d : sdict json) (r : json) :
  extract (JObj d) = r <-> Spec.estimate d r.
Proof.
  split.
  - intros <-.
    destruct (dict_valued_dec "median" d) as [[m Hm]|Hmed].
    { unfold extract. rewrite Hm. now apply Spec.from_median. }
    destruct (dict_valued_dec "mean" d) as [[m Hm]|Hmean].
    { rewrite (extract_mean d m Hmed Hm). now apply Spec.from_mean. }
    rewrite (extract_not_median_mean d Hmed Hmean).
    destruct (scan_values_cases d) as [Hnone|(b & k & o & a & Hd & Hb & Ho)].
    + rewrite (scan_values_none d Hnone). now apply Spec.unresolved.
    + assert (E : scan_values (values d) = get "point_estimate" o)
        by (rewrite Hd; now apply scan_values_first).
      rewrite E. now apply Spec.from_first with b k a.
  - intros [m Hm|m Hmed Hm|b k o a Hmed Hmean Hd Hb Ho|Hmed Hmean Hnone].
    + unfold extract. now rewrite Hm.
    + now apply extract_mean.
    + rewrite (extract_not_median_mean d Hmed Hmean), Hd.
      now apply scan_values_first.
    + rewrite (extract_not_median_mean d Hmed Hmean).
      now apply scan_values_none.
Qed.

(** C10: a dict-valued ["median"] without a ["point_estimate"] key leaves the
    case unresolved, whatever ["mean"] and the other top-level values hold. *)
Theorem extract_median_without_estimate (d m : sdict json) :
  slookup "median" d = Some (JObj m) ->
  slookup "point_estimate" m = None ->
  extract (JObj d) = JNull.
Proof.
  intros Hd Hm. unfold extract. rewrite Hd. now apply get_absent.
Qed.

Lemma extract_median_without_estimate_witness :
  let d := [("median", JObj [("standard_error", JFloat 0.5)]);
            ("mean", JObj [("point_estimate", JFloat 12.5)]);
            ("slope", JObj [("point_estimate", JFloat 13)])] in
  Spec.has_point_estimate (get "mean" d) = true /\
  extract (JObj d) = JNull.
Proof.
  split; [reflexivity|].
  apply (extract_median_without_estimate _ [("standard_error", JFloat 0.5)]);
    reflexivity.
Defined.

(** The three shapes of result file. *)
Example extract_median_shaped :
  extract (estimates (JFloat 1.25) (JFloat 1.5)) = JFloat 1.5.
Proof. reflexivity. Qed.

Example extract_mean_shaped :
  extract (JObj [("median", JFloat 2);
                 ("mean", JObj [("point_estimate", JFloat 1.25)]);
                 ("slope", JObj [("point_estimate", JFloat 3)])]) = JFloat 1.25.
Proof. reflexivity. Qed.

Example extract_first_shaped :
  extract (JObj [("id", JStr "parse");
                 ("typical", JObj [("unit", JStr "ns")]);
                 ("slope", JObj [("point_estimate", JInt 7)]);
                 ("std_dev", JObj [("point_estimate", JInt 9)])]) = JInt 7.
Proof. reflexivity. Qed.

Example extract_not_a_dict : extract (JArr [JObj [("median", JObj [])]]) = JNull.
Proof. reflexivity. Qed.

(** ** Unit normalizer *)

Lemma compare_cont_flip m n :
  PosDef.Pos.compare_cont Eq n m = CompOpp (PosDef.Pos.compare_cont Eq m n).
Proof. exact (Pos.compare_antisym m n). Qed.

Lemma SFcompare_flip x y c :
  SFcompare x y = Some c -> SFcompare y x = Some (CompOpp c).
Proof.
  destruct x as [sx|sx| |sx mx ex], y as [sy|sy| |sy my ey]; simpl;
    try discriminate; intros [= <-];
    repeat match goal with b : bool |- _ => destruct b end;
    simpl; try reflexivity.
  - rewrite (Z.compare_antisym ey ex).
    destruct (ey ?= ex)%Z; simpl; try reflexivity.
    now rewrite (compare_cont_flip my mx), CompOpp_involutive.
  - rewrite (Z.compare_antisym ey ex).
    destruct (ey ?= ex)%Z; simpl; try reflexivity.
    now rewrite (compare_cont_flip mx my).
Qed.

(** [x <= y] excludes [y < x]; a NaN satisfies neither. *)
Lemma leb_not_gt (x y : float) : (x <=? y)%float = true -> (y <? x)%float = false.
Proof.
  rewrite leb_spec, ltb_spec. unfold SFleb, SFltb.
  destruct (SFcompare (Prim2SF x) (Prim2SF y)) as [c|] eqn:E; [|discriminate].
  rewrite (SFcompare_flip _ _ _ E). now destruct c.
Qed.

Lemma leb_1e3_not_gt_1e6 (v : float) :
  (v <=? 1e3)%float = true -> (1e6 <? v)%float = false.
Proof.
  rewrite leb_spec, ltb_spec. unfold SFleb, SFltb.
  change (Prim2SF 1e3) with (S754_finite false 8796093022208000 (-43)).
  change (Prim2SF 1e6) with (S754_finite false 8589934592000000 (-33)).
  destruct (Prim2SF v) as [s|s| |s m e]; cbn [SFcompare]; try discriminate;
    try (destruct s; reflexivity || discriminate).
  destruct s; [reflexivity|].
  destruct (e ?= -43)%Z eqn:E; try discriminate.
  - apply Z.compare_eq in E; subst. reflexivity.
  - rewrite Z.compare_lt_iff in E. intros _.
    destruct (-33 ?= e)%Z eqn:E2; try reflexivity.
    + apply Z.compare_eq in E2. lia.
    + rewrite Z.compare_lt_iff in E2. lia.
Qed.

Lemma normalize_ns (v : float) :
  (1e6 <? v)%float = true -> normalize v = (v / 1e9)%float.
Proof. unfold normalize. now intros ->. Qed.

Lemma normalize_us (v : float) :
  (1e3 <? v)%float = true -> (v <=? 1e6)%float = true ->
  normalize v = (v / 1e6)%float.
Proof.
  intros Hlo Hhi. unfold normalize. now rewrite (leb_not_gt _ _ Hhi), Hlo.
Qed.

Lemma normalize_s (v : float) : (v <=? 1e3)%float = true -> normalize v = v.
Proof.
  intros H. unfold normalize.
  now rewrite (leb_1e3_not_gt_1e6 v H), (leb_not_gt v 1e3 H).
Qed.

(** C9: a value of at most 1000 is returned unchanged, so normalizing an
    output that is at most 1000 again changes nothing. *)
Theorem normalize_fixes_seconds (v : float) :
  ((v <=? 1e3)%float = true -> normalize v = v) /\
  ((normalize v <=? 1e3)%float = true ->
   normalize (normalize v) = normalize v).
Proof. split; [apply normalize_s|apply normalize_s]. Qed.

Lemma normalize_fixes_seconds_witness :
  normalize 0.0037 = 0.0037%float /\
  normalize (normalize 4200) = normalize 4200.
Proof.
  split.
  - apply (proj1 (normalize_fixes_seconds 0.0037)). reflexivity.
  - apply (proj2 (normalize_fixes_seconds 4200)). reflexivity.
Defined.

(** ** Dictionaries, continued *)

Section DictFacts.
Context {K V : Type} (eqb : K -> K -> bool).
Hypothesis eqb_eq : forall a b, eqb a b = true <-> a = b.

Lemma eqb_refl_true a : eqb a a = true.
Proof. now apply eqb_eq. Qed.

Lemma eqb_neq_false a b : a <> b -> eqb a b = false.
Proof.
  intros Hab. destruct (eqb a b) eqn:E; [|reflexivity].
  now apply eqb_eq in E.
Qed.

Lemma lookup_setitem_same k v (d : dict K V) :
  lookup eqb k (setitem eqb k v d) = Some v.
Proof.
  induction d as [|[k' v'] d IH]; simpl.
  - now rewrite eqb_refl_true.
  - destruct (eqb k k') eqn:E; simpl; now rewrite E.
Qed.

Lemma lookup_setitem_other k k' v (d : dict K V) :
  k <> k' -> lookup eqb k (setitem eqb k' v d) = lookup eqb k d.
Proof.
  intros Hk. induction d as [|[k0 v0] d IH]; simpl.
  - now rewrite (eqb_neq_false k k' Hk).
  - destruct (eqb k' k0) eqn:E; simpl.
    + apply eqb_eq in E; subst k0. now rewrite (eqb_neq_false k k' Hk).
    + now rewrite IH.
Qed.

Lemma lookup_In k v (d : dict K V) : lookup eqb k d = Some v -> In (k, v) d.
Proof.
  induction d as [|[k' v'] d IH]; simpl; [discriminate|].
  destruct (eqb k k') eqn:E.
  - apply eqb_eq in E; subst. intros [= ->]. now left.
  - auto.
Qed.

Lemma lookup_keys k (d : dict K V) :
  In k (keys d) -> exists v, lookup eqb k d = Some v.
Proof.
  induction d as [|[k' v'] d IH]; simpl; [easy|].
  intros [->|Hin].
  - rewrite eqb_refl_true. eauto.
  - destruct (eqb k k'); eauto.
Qed.

Lemma keys_setitem_In k k' v (d : dict K V) :
  In k (keys (setitem eqb k' v d)) -> k = k' \/ In k (keys d).
Proof.
  induction d as [|[k0 v0] d IH]; simpl.
  - intros [<-|[]]. now left.
  - destruct (eqb k' k0) eqn:E; simpl.
    + intros [<-|Hin]; auto.
    + intros [<-|Hin]; auto. destruct (IH Hin); auto.
Qed.

Lemma keys_setitem_NoDup k v (d : dict K V) :
  NoDup (keys d) -> NoDup (keys (setitem eqb k v d)).
Proof.
  induction d as [|[k0 v0] d IH]; simpl; intros Hd.
  - constructor; [easy|constructor].
  - inversion Hd as [|? ? Hnotin Hd']; subst.
    destruct (eqb k k0) eqn:E; simpl; [now constructor|].
    constructor; [|now apply IH].
    intros Hin. destruct (keys_setitem_In _ _ _ _ Hin) as [->|]; auto.
    now rewrite eqb_refl_true in E.
Qed.

(** Overwriting the binding just written. *)
Lemma setitem_setitem k v v' (d : dict K V) :
  setitem eqb k v' (setitem eqb k v d) = setitem eqb k v' d.
Proof.
  induction d as [|[k0 v0] d IH]; simpl.
  - now rewrite eqb_refl_true.
  - destruct (eqb k k0) eqn:E; simpl; rewrite E; [reflexivity|now rewrite IH].
Qed.

(** Writing a key that sits in the middle of the dict. *)
Lemma setitem_middle k v v' (before after : dict K V) :
  ~ In k (keys before) ->
  setitem eqb k v' (before ++ (k, v) :: after) = before ++ (k, v') :: after.
Proof.
  induction before as [|[k0 v0] b IH]; simpl; intros Hnotin.
  - now rewrite eqb_refl_true.
  - rewrite eqb_neq_false by intuition congruence.
    rewrite IH by tauto. reflexivity.
Qed.

End DictFacts.

Lemma slookup_ssetitem_same {V} k v (d : sdict V) :
  slookup k (ssetitem k v d) = Some v.
Proof. apply lookup_setitem_same, String.eqb_eq. Qed.

Lemma slookup_ssetitem_other {V} k k' v (d : sdict V) :
  k <> k' -> slookup k (ssetitem k' v d) = slookup k d.
Proof. apply lookup_setitem_other, String.eqb_eq. Qed.

(** ** Computations *)

Lemma never_exits_ret {A} (a : A) : never_exits (ret a).
Proof. intros w msg; discriminate. Qed.

Lemma never_exits_print line : never_exits (print line).
Proof. intros w msg; discriminate. Qed.

Lemma never_exits_savefig cwd out c : never_exits (savefig cwd out c).
Proof. intros w msg. unfold savefig. destruct (is_dir cwd out); discriminate. Qed.

Lemma never_exits_tight_layout {mpl : Matplotlib} labels :
  never_exits (tight_layout labels).
Proof.
  intros w msg. unfold tight_layout.
  destruct (forallb draws labels); discriminate.
Qed.

Lemma never_exits_lift {A} (r : exn + A) :
  (forall msg, r <> inl (SystemExit msg)) -> never_exits (lift r).
Proof. intros Hr w msg. apply Hr. Qed.

Lemma never_exits_bind {A B} (c : M A) (k : A -> M B) :
  never_exits c -> (forall a, never_exits (k a)) -> never_exits (bind c k).
Proof.
  intros Hc Hk w msg. unfold bind.
  specialize (Hc w msg). destruct (c w) as [w' [e|a]]; simpl in *.
  - congruence.
  - apply Hk.
Qed.

Lemma read_json_no_exit cwd p msg : read_json cwd p <> inl (SystemExit msg).
Proof.
  unfold read_json. destruct (resolve cwd p) as [[[doc| | |]|]|]; discriminate.
Qed.

Lemma iterdir_no_exit cwd p msg : iterdir cwd p <> inl (SystemExit msg).
Proof. unfold iterdir. destruct (resolve cwd p) as [[]|]; discriminate. Qed.

Lemma mkdir_parents_no_exit p : forall cwd msg,
  mkdir_parents cwd p <> inl (SystemExit msg).
Proof.
  induction p as [|c p IH]; intros [doc|entries] msg; simpl; try discriminate.
  destruct (slookup c entries); [apply IH|discriminate].
Qed.

Lemma float_of_int_no_exit z msg : float_of_int z <> inl (SystemExit msg).
Proof.
  unfold float_of_int. destruct (binary_normalize prec emax z 0 false); discriminate.
Qed.

Lemma float_of_no_exit {conv : Conversions} v msg :
  float_of v <> inl (SystemExit msg).
Proof.
  destruct v as [|b|z|f|s|l|l]; simpl; try discriminate.
  - apply float_of_int_no_exit.
  - destruct (float_of_str s); discriminate.
Qed.

(** ** Result locator *)

Lemma locate_primary cwd case :
  exists_ cwd (primary case) = true -> locate cwd case = Some (primary case).
Proof. intros H. unfold locate. rewrite H. simpl. now rewrite H. Qed.

Lemma locate_secondary cwd case :
  exists_ cwd (primary case) = false -> exists_ cwd (secondary case) = true ->
  locate cwd case = Some (secondary case).
Proof. intros H1 H2. unfold locate. rewrite H1. simpl. now rewrite H2. Qed.

Lemma locate_neither cwd case :
  exists_ cwd (primary case) = false -> exists_ cwd (secondary case) = false ->
  locate cwd case = None.
Proof. intros H1 H2. unfold locate. rewrite H1. simpl. now rewrite H2. Qed.

Lemma exists_resolve cwd p n : resolve cwd p = Some n -> exists_ cwd p = true.
Proof. unfold exists_. now intros ->. Qed.

Lemma read_json_resolve cwd p doc :
  resolve cwd p = Some (File (Json doc)) -> read_json cwd p = inr doc.
Proof. unfold read_json. now intros ->. Qed.

(** ** The loops, one case at a time *)

Section Steps.
Context {conv : Conversions} {mpl : Matplotlib} (cwd : node).

Lemma datetime_step_no_file name rest results w :
  no_result_file cwd (Datetime.root ++ [name]) ->
  Datetime.collect cwd (name :: rest) results w =
  Datetime.collect cwd rest results (logged ("Missing estimates for " ++ name) w).
Proof. unfold no_result_file. intros H. cbn [Datetime.collect]. now rewrite H. Qed.

Lemma datetime_step_no_estimate name rest results w :
  no_point_estimate cwd (Datetime.root ++ [name]) ->
  Datetime.collect cwd (name :: rest) results w =
  Datetime.collect cwd rest results
    (logged ("Could not find median for " ++ name) w).
Proof.
  intros (p & doc & Hp & Hdoc & Hnone). cbn [Datetime.collect].
  rewrite Hp. unfold bind at 1, lift at 1. rewrite Hdoc, Hnone. reflexivity.
Qed.

Lemma datetime_step_measured name rest results w t :
  measured cwd (Datetime.root ++ [name]) t ->
  Datetime.collect cwd (name :: rest) results w =
  Datetime.collect cwd rest (ssetitem name (normalize t) results) w.
Proof.
  intros (p & doc & Hp & Hdoc & Hsome & Ht). cbn [Datetime.collect].
  rewrite Hp. unfold bind at 1, lift at 1. rewrite Hdoc, Hsome.
  unfold bind at 1, lift at 1. now rewrite Ht.
Qed.

Lemma duckdb_step_no_file m s rest results w :
  no_result_file cwd (Duckdb.root ++ [m; str_of_int s]) ->
  Duckdb.collect_sizes cwd m (s :: rest) results w =
  Duckdb.collect_sizes cwd m rest results
    (logged ("Missing file for " ++ m ++ " " ++ str_of_int s) w).
Proof.
  unfold no_result_file. intros H. cbn [Duckdb.collect_sizes]. now rewrite H.
Qed.

Lemma duckdb_step_no_estimate m s rest results w :
  no_point_estimate cwd (Duckdb.root ++ [m; str_of_int s]) ->
  Duckdb.collect_sizes cwd m (s :: rest) results w =
  Duckdb.collect_sizes cwd m rest results
    (logged ("Could not find median for " ++ m ++ " " ++ str_of_int s) w).
Proof.
  intros (p & doc & Hp & Hdoc & Hnone). cbn [Duckdb.collect_sizes].
  rewrite Hp. unfold bind at 1, lift at 1. rewrite Hdoc, Hnone. reflexivity.
Qed.

Lemma duckdb_step_measured m s rest results inner w t :
  measured cwd (Duckdb.root ++ [m; str_of_int s]) t ->
  slookup m results = Some inner ->
  Duckdb.collect_sizes cwd m (s :: rest) results w =
  Duckdb.collect_sizes cwd m rest
    (ssetitem m (setitem Z.eqb s t inner) results) w.
Proof.
  intros (p & doc & Hp & Hdoc & Hsome & Ht) Hm. cbn [Duckdb.collect_sizes].
  rewrite Hp. unfold bind at 1, lift at 1. rewrite Hdoc, Hsome.
  unfold bind at 1, lift at 1. rewrite Ht.
  unfold bind at 1, lift at 1, Duckdb.set2. now rewrite Hm.
Qed.

Lemma varied_step_not_dir base d rest sizes vals w :
  is_dir cwd (base ++ [d]) = false ->
  Varied.series_loop cwd base (d :: rest) sizes vals w =
  Varied.series_loop cwd base rest sizes vals w.
Proof. intros H. cbn [Varied.series_loop]. now rewrite H. Qed.

Lemma varied_step_no_file base d rest sizes vals w :
  is_dir cwd (base ++ [d]) = true ->
  no_result_file cwd (base ++ [d]) ->
  Varied.series_loop cwd base (d :: rest) sizes vals w =
  Varied.series_loop cwd base rest sizes vals w.
Proof.
  unfold no_result_file. intros Hd H. cbn [Varied.series_loop].
  now rewrite Hd, H.
Qed.

Lemma varied_step_no_estimate base d rest sizes vals w :
  is_dir cwd (base ++ [d]) = true ->
  no_point_estimate cwd (base ++ [d]) ->
  Varied.series_loop cwd base (d :: rest) sizes vals w =
  Varied.series_loop cwd base rest sizes vals w.
Proof.
  intros Hd (p & doc & Hp & Hdoc & Hnone). cbn [Varied.series_loop].
  rewrite Hd, Hp. cbn [negb]. unfold bind at 1, lift at 1.
  now rewrite Hdoc, Hnone.
Qed.

Lemma varied_step_measured base d rest sizes vals w t :
  is_dir cwd (base ++ [d]) = true ->
  measured cwd (base ++ [d]) t ->
  Varied.series_loop cwd base (d :: rest) sizes vals w =
  Varied.series_loop cwd base rest
    (Varied.append_size d sizes) (vals ++ [normalize t]) w.
Proof.
  intros Hd (p & doc & Hp & Hdoc & Hsome & Ht). cbn [Varied.series_loop].
  rewrite Hd, Hp. cbn [negb]. unfold bind at 1, lift at 1.
  rewrite Hdoc, Hsome. unfold bind at 1, lift at 1. now rewrite Ht.
Qed.

End Steps.

(** ** Which runs end in [SystemExit] *)

Ltac no_exit :=
  repeat first
    [ assumption
    | apply never_exits_ret
    | apply never_exits_print
    | apply never_exits_savefig
    | apply never_exits_lift; intros
    | apply never_exits_bind; [|intros]
    | apply read_json_no_exit
    | apply float_of_no_exit
    | apply iterdir_no_exit
    | apply mkdir_parents_no_exit
    | match goal with
      | |- never_exits (match ?x with _ => _ end) => destruct x
      | |- never_exits (let _ := _ in _) => cbv zeta
      end ].

Section Exits.
Context {conv : Conversions} {mpl : Matplotlib} (cwd : node).

Lemma datetime_getitems_no_exit results names msg :
  Datetime.getitems results names <> inl (SystemExit msg).
Proof.
  induction names as [|n names IH]; simpl; [discriminate|].
  destruct (slookup n results); [|discriminate].
  destruct (Datetime.getitems results names); [congruence|discriminate].
Qed.

Lemma datetime_collect_never_exits names :
  forall results, never_exits (Datetime.collect cwd names results).
Proof.
  induction names as [|name rest IH]; intros results;
    cbn [Datetime.collect]; no_exit; apply IH.
Qed.

Lemma datetime_exit_only_root w msg :
  snd (Datetime.main cwd w) = inl (SystemExit msg) ->
  exists_ cwd Datetime.root = false.
Proof.
  unfold Datetime.main. destruct (exists_ cwd Datetime.root); [|reflexivity].
  cbn [negb]. intros H. exfalso. revert H.
  assert (Hn : never_exits
    (children <- lift (iterdir cwd Datetime.root) ;;
     results <- Datetime.collect cwd
       (sorted id String.leb (Datetime.sub_benches cwd children)) [] ;;
     lift (mkdir_parents cwd Datetime.out_dir) ;;;
     vals <- lift (Datetime.getitems results (keys results)) ;;
     tight_layout (keys results) ;;;
     savefig cwd Datetime.out (Bar (keys results) vals) ;;;
     print ("Wrote " ++ path_str Datetime.out))).
  { no_exit.
    - apply datetime_collect_never_exits.
    - apply datetime_getitems_no_exit.
    - apply never_exits_tight_layout. }
  apply Hn.
Qed.

Lemma set2_no_exit m s v results msg :
  Duckdb.set2 m s v results <> inl (SystemExit msg).
Proof. unfold Duckdb.set2. destruct (slookup m results); discriminate. Qed.

Lemma duckdb_collect_sizes_never_exits m ss :
  forall results, never_exits (Duckdb.collect_sizes cwd m ss results).
Proof.
  induction ss as [|s rest IH]; intros results;
    cbn [Duckdb.collect_sizes]; no_exit; try apply IH.
  apply set2_no_exit.
Qed.

Lemma duckdb_collect_never_exits ms ss :
  forall results, never_exits (Duckdb.collect cwd ms ss results).
Proof.
  induction ms as [|m rest IH]; intros results; cbn [Duckdb.collect]; no_exit.
  - apply duckdb_collect_sizes_never_exits.
  - apply IH.
Qed.

Lemma rescale_items_no_exit m its msg :
  forall results, Duckdb.rescale_items m its results <> inl (SystemExit msg).
Proof.
  induction its as [|[s t] its IH]; intros results; simpl; [discriminate|].
  destruct (1e6 <? t)%float; [|destruct (1e3 <? t)%float]; try apply IH.
  - destruct (Duckdb.set2 m s (t / 1e9) results) eqn:E; [|apply IH].
    intros [= ->]. now apply set2_no_exit in E.
  - destruct (Duckdb.set2 m s (t / 1e6) results) eqn:E; [|apply IH].
    intros [= ->]. now apply set2_no_exit in E.
Qed.

Lemma rescale_no_exit ms msg :
  forall results, Duckdb.rescale ms results <> inl (SystemExit msg).
Proof.
  induction ms as [|m ms IH]; intros results; simpl; [discriminate|].
  destruct (slookup m results) as [inner|]; [|discriminate].
  destruct (Duckdb.rescale_items m (items inner) results) eqn:E; [|apply IH].
  intros [= ->]. now apply rescale_items_no_exit in E.
Qed.

Lemma duckdb_getitems_no_exit inner xs msg :
  Duckdb.getitems inner xs <> inl (SystemExit msg).
Proof.
  induction xs as [|x xs IH]; simpl; [discriminate|].
  destruct (lookup Z.eqb x inner); [|discriminate].
  destruct (Duckdb.getitems inner xs); [congruence|discriminate].
Qed.

Lemma draw_no_exit ms results msg :
  Duckdb.draw ms results <> inl (SystemExit msg).
Proof.
  induction ms as [|m ms IH]; simpl; [discriminate|].
  destruct (slookup m results) as [inner|]; [|discriminate].
  destruct (Duckdb.getitems inner _) eqn:E.
  - intros [= ->]. now apply duckdb_getitems_no_exit in E.
  - destruct (Duckdb.draw ms results); [congruence|discriminate].
Qed.

Lemma duckdb_exit_only_root ms ss w msg :
  snd (Duckdb.run cwd ms ss w) = inl (SystemExit msg) ->
  exists_ cwd Duckdb.root = false.
Proof.
  unfold Duckdb.run. destruct (exists_ cwd Duckdb.root); [|reflexivity].
  cbn [negb]. intros H. exfalso. revert H.
  assert (Hn : never_exits
    (results <- Duckdb.collect cwd ms ss (Duckdb.empty_table ms) ;;
     results <- lift (Duckdb.rescale ms results) ;;
     lift (mkdir_parents cwd Duckdb.out_dir) ;;;
     ls <- lift (Duckdb.draw ms results) ;;
     savefig cwd Duckdb.out_path (Lines true ls) ;;;
     print ("Wrote " ++ path_str Duckdb.out_path))).
  { no_exit.
    - apply duckdb_collect_never_exits.
    - apply rescale_no_exit.
    - apply draw_no_exit. }
  apply Hn.
Qed.

Lemma varied_series_loop_never_exits base ds :
  forall sizes vals, never_exits (Varied.series_loop cwd base ds sizes vals).
Proof.
  induction ds as [|d rest IH]; intros sizes vals;
    cbn [Varied.series_loop]; no_exit; apply IH.
Qed.

Lemma varied_extract_series_never_exits group :
  never_exits (Varied.extract_series cwd group).
Proof.
  unfold Varied.extract_series. no_exit.
  apply varied_series_loop_never_exits.
Qed.

Lemma varied_plot_groups_never_exits gs :
  never_exits (Varied.plot_groups cwd gs).
Proof.
  induction gs as [|g rest IH]; cbn [Varied.plot_groups]; no_exit.
  apply varied_extract_series_never_exits.
Qed.

Lemma varied_exit_only_root w msg :
  snd (Varied.main cwd w) = inl (SystemExit msg) ->
  exists_ cwd Varied.root = false.
Proof.
  unfold Varied.main. destruct (exists_ cwd Varied.root); [|reflexivity].
  cbn [negb]. intros H. exfalso. revert H.
  assert (Hn : never_exits
    (lift (mkdir_parents cwd Varied.out_dir) ;;;
     Varied.plot_groups cwd Varied.groups)).
  { apply never_exits_bind; [no_exit|intros].
    apply varied_plot_groups_never_exits. }
  apply Hn.
Qed.

End Exits.

(** ** The root check and the single-case script *)

Section Roots.
Context {conv : Conversions} {mpl : Matplotlib} (cwd : node).

Lemma datetime_root_missing w :
  exists_ cwd Datetime.root = false ->
  Datetime.main cwd w = (w, inl (SystemExit (root_message Datetime.root))).
Proof. intros H. unfold Datetime.main. now rewrite H. Qed.

Lemma duckdb_root_missing ms ss w :
  exists_ cwd Duckdb.root = false ->
  Duckdb.run cwd ms ss w = (w, inl (SystemExit (root_message Duckdb.root))).
Proof. intros H. unfold Duckdb.run. now rewrite H. Qed.

Lemma sqllog_bench_root_missing w :
  exists_ cwd SqllogBench.root = false ->
  SqllogBench.main cwd w = (w, inl (SystemExit (root_message SqllogBench.root))).
Proof. intros H. unfold SqllogBench.main. now rewrite H. Qed.

Lemma varied_root_missing w :
  exists_ cwd Varied.root = false ->
  Varied.main cwd w = (w, inl (SystemExit (root_message Varied.root))).
Proof. intros H. unfold Varied.main. now rewrite H. Qed.

Lemma varied_group_missing group w :
  exists_ cwd (Varied.root ++ [group]) = false ->
  Varied.extract_series cwd group w = (logged ("No group " ++ group) w, inr None).
Proof. intros H. unfold Varied.extract_series. now rewrite H. Qed.

Lemma sqllog_bench_no_file w :
  exists_ cwd SqllogBench.root = true ->
  no_result_file cwd SqllogBench.root ->
  SqllogBench.main cwd w =
  (w, inl (SystemExit ("No estimates found in " ++ path_str SqllogBench.root))).
Proof.
  unfold no_result_file. intros Hroot H. unfold SqllogBench.main.
  now rewrite Hroot, H.
Qed.

Lemma sqllog_bench_no_estimate w :
  exists_ cwd SqllogBench.root = true ->
  no_point_estimate cwd SqllogBench.root ->
  SqllogBench.main cwd w =
  (w, inl (SystemExit "Could not find median in estimates")).
Proof.
  intros Hroot (p & doc & Hp & Hdoc & Hnone). unfold SqllogBench.main.
  rewrite Hroot, Hp. cbn [negb]. unfold bind at 1, lift at 1.
  now rewrite Hdoc, Hnone.
Qed.

End Roots.

(** ** Claims about failures *)

(** C3, as amended: in [plot_datetime_bench] and [plot_duckdb_write_bench]
    only a missing results root ends the run in [SystemExit]; a case without
    a result file or without a point estimate is left out of the results,
    one line is printed for it, and the loop goes on with the next case.
    [plot_sqllog_varied] leaves such a case out and goes on without
    printing anything.  [plot_sqllog_bench] ends in [SystemExit] in both
    conditions. *)
Theorem unresolved_case_policy {conv : Conversions} {mpl : Matplotlib}
    (cwd : node) :
  (forall w msg,
     (snd (Datetime.main cwd w) = inl (SystemExit msg) ->
      exists_ cwd Datetime.root = false) /\
     (snd (Duckdb.main cwd w) = inl (SystemExit msg) ->
      exists_ cwd Duckdb.root = false)) /\
  (forall name rest results w,
     (no_result_file cwd (Datetime.root ++ [name]) ->
      Datetime.collect cwd (name :: rest) results w =
      Datetime.collect cwd rest results
        (logged ("Missing estimates for " ++ name) w)) /\
     (no_point_estimate cwd (Datetime.root ++ [name]) ->
      Datetime.collect cwd (name :: rest) results w =
      Datetime.collect cwd rest results
        (logged ("Could not find median for " ++ name) w))) /\
  (forall m s rest results w,
     (no_result_file cwd (Duckdb.root ++ [m; str_of_int s]) ->
      Duckdb.collect_sizes cwd m (s :: rest) results w =
      Duckdb.collect_sizes cwd m rest results
        (logged ("Missing file for " ++ m ++ " " ++ str_of_int s) w)) /\
     (no_point_estimate cwd (Duckdb.root ++ [m; str_of_int s]) ->
      Duckdb.collect_sizes cwd m (s :: rest) results w =
      Duckdb.collect_sizes cwd m rest results
        (logged ("Could not find median for " ++ m ++ " " ++ str_of_int s) w))) /\
  (forall base d rest sizes vals w,
     is_dir cwd (base ++ [d]) = true ->
     no_result_file cwd (base ++ [d]) \/ no_point_estimate cwd (base ++ [d]) ->
     Varied.series_loop cwd base (d :: rest) sizes vals w =
     Varied.series_loop cwd base rest sizes vals w) /\
  (forall w,
     exists_ cwd SqllogBench.root = true ->
     no_result_file cwd SqllogBench.root \/
     no_point_estimate cwd SqllogBench.root ->
     exists msg, SqllogBench.main cwd w = (w, inl (SystemExit msg))).
Proof.
  repeat split.
  - apply datetime_exit_only_root.
  - apply duckdb_exit_only_root.
  - apply datetime_step_no_file.
  - apply datetime_step_no_estimate.
  - apply duckdb_step_no_file.
  - apply duckdb_step_no_estimate.
  - intros base d rest sizes vals w Hd [H|H].
    + now apply varied_step_no_file.
    + now apply varied_step_no_estimate.
  - intros w Hroot [H|H]; eexists.
    + now apply sqllog_bench_no_file.
    + now apply sqllog_bench_no_estimate.
Qed.

(** C3 as stated fails: [plot_sqllog_bench] on a tree whose root exists and
    holds no result file ends in [SystemExit]; the case is not recovered. *)
Lemma sqllog_bench_aborts_without_file :
  exists_ bench_without_file SqllogBench.root = true /\
  no_result_file bench_without_file SqllogBench.root /\
  SqllogBench.main (conv := numerals_only) bench_without_file start =
  (start,
   inl (SystemExit "No estimates found in target/criterion/sqllog_from_file_1m")).
Proof. repeat split. Qed.

(** C6, as amended: when a script's [root] does not exist
    ([target/criterion/<group>] in [plot_datetime_bench],
    [plot_duckdb_write_bench] and [plot_sqllog_bench]; [target/criterion] in
    [plot_sqllog_varied]) the run ends at once in [SystemExit], with exit
    status 1, nothing printed and no image saved.  The three scripts that
    loop over cases end in [SystemExit] in no other way; in
    [plot_sqllog_varied] a missing group directory is reported and skipped.
    [plot_sqllog_bench] also exits when its one case has no result file or
    no point estimate. *)
Theorem root_missing_aborts {conv : Conversions} {mpl : Matplotlib}
    (cwd : node) (w : world) :
  (exists_ cwd Datetime.root = false ->
   Datetime.main cwd w = (w, inl (SystemExit (root_message Datetime.root))) /\
   exit_status (snd (Datetime.main cwd w)) = 1%Z) /\
  (exists_ cwd Duckdb.root = false ->
   Duckdb.main cwd w = (w, inl (SystemExit (root_message Duckdb.root))) /\
   exit_status (snd (Duckdb.main cwd w)) = 1%Z) /\
  (exists_ cwd SqllogBench.root = false ->
   SqllogBench.main cwd w =
   (w, inl (SystemExit (root_message SqllogBench.root))) /\
   exit_status (snd (SqllogBench.main cwd w)) = 1%Z) /\
  (exists_ cwd Varied.root = false ->
   Varied.main cwd w = (w, inl (SystemExit (root_message Varied.root))) /\
   exit_status (snd (Varied.main cwd w)) = 1%Z) /\
  (forall msg,
     (snd (Datetime.main cwd w) = inl (SystemExit msg) ->
      exists_ cwd Datetime.root = false) /\
     (snd (Duckdb.main cwd w) = inl (SystemExit msg) ->
      exists_ cwd Duckdb.root = false) /\
     (snd (Varied.main cwd w) = inl (SystemExit msg) ->
      exists_ cwd Varied.root = false)) /\
  (forall group,
     exists_ cwd (Varied.root ++ [group]) = false ->
     Varied.extract_series cwd group w =
     (logged ("No group " ++ group) w, inr None)) /\
  (exists_ cwd SqllogBench.root = true ->
   (no_result_file cwd SqllogBench.root ->
    SqllogBench.main cwd w =
    (w, inl (SystemExit ("No estimates found in " ++ path_str SqllogBench.root)))) /\
   (no_point_estimate cwd SqllogBench.root ->
    SqllogBench.main cwd w =
    (w, inl (SystemExit "Could not find median in estimates")))).
Proof.
  split; [|split; [|split; [|split; [|split; [|split]]]]].
  - intros H. now rewrite (datetime_root_missing cwd w H).
  - intros H. unfold Duckdb.main. now rewrite (duckdb_root_missing cwd _ _ w H).
  - intros H. now rewrite (sqllog_bench_root_missing cwd w H).
  - intros H. now rewrite (varied_root_missing cwd w H).
  - intros msg. split; [|split].
    + apply datetime_exit_only_root.
    + apply duckdb_exit_only_root.
    + apply varied_exit_only_root.
  - intros group. apply varied_group_missing.
  - intros Hroot. split.
    + now apply sqllog_bench_no_file.
    + now apply sqllog_bench_no_estimate.
Qed.

(** C6 as stated fails twice.  [plot_sqllog_bench] exits on its one case
    when the result file holds no point estimate; and [plot_sqllog_varied]
    neither exits nor fails when the directories of its two groups do not
    exist: it prints two lines, saves nothing and finishes. *)
Lemma abort_rule_counterexample :
  (exists_ bench_without_estimate SqllogBench.root = true /\
   SqllogBench.main (conv := numerals_only) bench_without_estimate start =
   (start, inl (SystemExit "Could not find median in estimates"))) /\
  (exists_ no_sweep_groups (Varied.root ++ ["sqllog_write_file"]) = false /\
   exists_ no_sweep_groups (Varied.root ++ ["sqllog_parse_file"]) = false /\
   Varied.main (conv := numerals_only) no_sweep_groups start =
   ({| stdout := ["No group sqllog_write_file"; "No group sqllog_parse_file"];
       images := [] |}, inr tt)).
Proof. repeat split. Qed.

(** ** Claims about the locator *)

Lemma only_secondary_measured {conv : Conversions} cwd case doc t :
  only_secondary cwd case doc ->
  is_none (extract doc) = false -> float_of (extract doc) = inr t ->
  measured cwd case t.
Proof.
  intros [Hp Hs] Hsome Ht. exists (secondary case), doc.
  repeat split; auto.
  - apply locate_secondary; [assumption|]. now apply exists_resolve in Hs.
  - now apply read_json_resolve.
Qed.

(** C5: the locator takes [<case>/base/estimates.json] when it exists, else
    [<case>/new/benchmark.json] when that exists, else nothing; when only
    the second file exists the estimate is read from it and, in
    [plot_datetime_bench] and [plot_duckdb_write_bench], stored for the
    case. *)
Theorem locator_fallback {conv : Conversions} (cwd : node) (case : path) :
  primary case = case ++ ["base"; "estimates.json"] /\
  secondary case = case ++ ["new"; "benchmark.json"] /\
  (exists_ cwd (primary case) = true ->
   locate cwd case = Some (primary case)) /\
  (exists_ cwd (primary case) = false ->
   exists_ cwd (secondary case) = true ->
   locate cwd case = Some (secondary case)) /\
  (exists_ cwd (primary case) = false ->
   exists_ cwd (secondary case) = false ->
   no_result_file cwd case) /\
  (forall doc t,
     only_secondary cwd case doc ->
     is_none (extract doc) = false -> float_of (extract doc) = inr t ->
     measured cwd case t /\
     (forall name rest results w,
        case = Datetime.root ++ [name] ->
        Datetime.collect cwd (name :: rest) results w =
        Datetime.collect cwd rest (ssetitem name (normalize t) results) w) /\
     (forall m s rest results inner w,
        case = Duckdb.root ++ [m; str_of_int s] ->
        slookup m results = Some inner ->
        Duckdb.collect_sizes cwd m (s :: rest) results w =
        Duckdb.collect_sizes cwd m rest
          (ssetitem m (setitem Z.eqb s t inner) results) w)).
Proof.
  split; [reflexivity|]. split; [reflexivity|].
  split; [apply locate_primary|]. split; [apply locate_secondary|].
  split; [apply locate_neither|].
  intros doc t Honly Hsome Ht.
  pose proof (only_secondary_measured cwd case doc t Honly Hsome Ht) as Hm.
  split; [exact Hm|]. split.
  - intros name rest results w ->. now apply datetime_step_measured.
  - intros m s rest results inner w -> Hin. now apply duckdb_step_measured.
Qed.

Lemma locator_fallback_witness :
  Datetime.collect (conv := numerals_only) new_layout_only
    ["custom_valid"] [] start =
  (start, inr [("custom_valid", 0.0042%float)]).
Proof.
  pose proof (locator_fallback (conv := numerals_only) new_layout_only
                (Datetime.root ++ ["custom_valid"])) as H.
  destruct H as (_ & _ & _ & _ & _ & H).
  destruct (H (estimates (JFloat 4350.5) (JInt 4200)) 4200%float) as (_ & Hd & _).
  - split; reflexivity.
  - reflexivity.
  - reflexivity.
  - rewrite (Hd "custom_valid" [] [] start eq_refl). reflexivity.
Defined.

(** ** Sorting *)

Section SortedFacts.
Context {A K : Type} (key : A -> K) (leb : K -> K -> bool).
Hypothesis leb_total : forall a b, leb a b = true \/ leb b a = true.
Hypothesis leb_trans :
  forall a b c, leb a b = true -> leb b c = true -> leb a c = true.

Let le (x y : A) : Prop := leb (key x) (key y) = true.

Lemma insert_In x y l : In y (insert key leb x l) -> y = x \/ In y l.
Proof.
  induction l as [|z l IH]; simpl.
  - intros [<-|[]]; auto.
  - destruct (leb (key x) (key z)); simpl.
    + intros [<-|H]; auto.
    + intros [<-|H]; auto. destruct (IH H); auto.
Qed.

Lemma insert_sorted x l :
  StronglySorted le l -> StronglySorted le (insert key leb x l).
Proof.
  induction 1 as [|z l Hl IH Hz]; simpl.
  - repeat constructor.
  - destruct (leb (key x) (key z)) eqn:E.
    + constructor; [now constructor|].
      constructor; [exact E|].
      rewrite Forall_forall in *. intros y Hy.
      unfold le in *. eapply leb_trans; [exact E|now apply Hz].
    + constructor; [exact IH|].
      rewrite Forall_forall in *. intros y Hy.
      destruct (insert_In _ _ _ Hy) as [->|Hin]; [|now apply Hz].
      unfold le. destruct (leb_total (key x) (key z)); congruence.
Qed.

Lemma sorted_sorted l : StronglySorted le (sorted key leb l).
Proof.
  induction l as [|x l IH]; simpl; [constructor|now apply insert_sorted].
Qed.

Lemma insert_perm x l : Permutation (insert key leb x l) (x :: l).
Proof.
  induction l as [|z l IH]; simpl; [reflexivity|].
  destruct (leb (key x) (key z)); [reflexivity|].
  rewrite IH. apply perm_swap.
Qed.

Lemma sorted_perm l : Permutation (sorted key leb l) l.
Proof.
  induction l as [|x l IH]; simpl; [reflexivity|].
  rewrite insert_perm. now constructor.
Qed.

End SortedFacts.

Lemma sorted_Z_ascending (l : list Z) :
  StronglySorted Z.le (sorted id Z.leb l) /\ Permutation (sorted id Z.leb l) l.
Proof.
  split; [|apply sorted_perm].
  assert (H : StronglySorted (fun x y => Z.leb (id x) (id y) = true)
                (sorted id Z.leb l)).
  { apply sorted_sorted.
    - intros a b. rewrite !Z.leb_le. lia.
    - intros a b c. rewrite !Z.leb_le. lia. }
  induction H as [|x xs Hxs IH Hx]; constructor; auto.
  rewrite Forall_forall in *. intros y Hy. apply Z.leb_le. now apply Hx.
Qed.

(** Every line [plot_duckdb_write_bench] draws has its sizes ascending, and
    they are the sizes stored for its mode. *)
Lemma duckdb_lines_ascending ms : forall results ls,
  Duckdb.draw ms results = inr ls ->
  Forall2 (fun m l =>
             label l = Some m /\ StronglySorted Z.le (xs l) /\
             exists inner, slookup m results = Some inner /\
                           Permutation (xs l) (keys inner)) ms ls.
Proof.
  induction ms as [|m ms IH]; intros results ls; simpl.
  - intros [= <-]. constructor.
  - destruct (slookup m results) as [inner|] eqn:Hm; [|discriminate].
    destruct (Duckdb.getitems inner _) as [e|vs]; [discriminate|].
    destruct (Duckdb.draw ms results) as [e|ls'] eqn:Hd; [discriminate|].
    intros [= <-]. constructor; [|now apply IH].
    cbn [label xs]. split; [reflexivity|].
    split; [apply sorted_Z_ascending|].
    exists inner. split; [exact Hm|apply sorted_Z_ascending].
Qed.

(** *** The order of names, and why the directory listing order is lost *)

Lemma ascii_compare_lt_trans a b c :
  Ascii.compare a b = Lt -> Ascii.compare b c = Lt -> Ascii.compare a c = Lt.
Proof. unfold Ascii.compare. rewrite !N.compare_lt_iff. lia. Qed.

Lemma string_compare_lt_trans s1 : forall s2 s3,
  String.compare s1 s2 = Lt -> String.compare s2 s3 = Lt ->
  String.compare s1 s3 = Lt.
Proof.
  induction s1 as [|a s1 IH]; intros [|b s2] [|c s3]; simpl;
    try discriminate; auto.
  destruct (Ascii.compare a b) eqn:Hab; try discriminate;
    destruct (Ascii.compare b c) eqn:Hbc; try discriminate; intros H1 H2.
  - apply Ascii.compare_eq_iff in Hab, Hbc. subst.
    rewrite (proj2 (N.compare_eq_iff _ _) eq_refl : Ascii.compare c c = Eq).
    eauto.
  - apply Ascii.compare_eq_iff in Hab. subst. now rewrite Hbc.
  - apply Ascii.compare_eq_iff in Hbc. subst. now rewrite Hab.
  - now rewrite (ascii_compare_lt_trans a b c).
Qed.

Lemma string_leb_trans s1 s2 s3 :
  String.leb s1 s2 = true -> String.leb s2 s3 = true -> String.leb s1 s3 = true.
Proof.
  unfold String.leb.
  destruct (String.compare s1 s2) eqn:H12; try discriminate;
    destruct (String.compare s2 s3) eqn:H23; try discriminate; intros _ _.
  - apply String.compare_eq_iff in H12. subst. now rewrite H23.
  - apply String.compare_eq_iff in H12. subst. now rewrite H23.
  - apply String.compare_eq_iff in H23. subst. now rewrite H12.
  - now rewrite (string_compare_lt_trans s1 s2 s3).
Qed.

Section SortedUnique.
Context {A : Type} (le : A -> A -> Prop).
Hypothesis le_antisym : forall a b, le a b -> le b a -> a = b.

Lemma sorted_perm_unique l : forall l',
  StronglySorted le l -> StronglySorted le l' -> Permutation l l' -> l = l'.
Proof.
  induction l as [|x l IH]; intros l' Hl Hl' Hp.
  - apply Permutation_nil in Hp. now subst.
  - destruct l' as [|y l'].
    { apply Permutation_sym, Permutation_nil in Hp. discriminate. }
    inversion Hl as [|? ? Hsl Hx]; subst.
    inversion Hl' as [|? ? Hsl' Hy]; subst.
    assert (x = y).
    { rewrite Forall_forall in Hx, Hy.
      assert (Hxin : In x (y :: l'))
        by (eapply Permutation_in; [exact Hp|now left]).
      assert (Hyin : In y (x :: l))
        by (eapply Permutation_in; [apply Permutation_sym; exact Hp|now left]).
      destruct Hxin as [->|Hxin]; [reflexivity|].
      destruct Hyin as [->|Hyin]; [reflexivity|].
      apply le_antisym; auto. }
    subst y. f_equal. apply IH; auto. now apply Permutation_cons_inv in Hp.
Qed.

End SortedUnique.

(** Sorting names forgets the order the directory listed them in. *)
Lemma sorted_names_independent (names names' : list string) :
  Permutation names names' ->
  sorted id String.leb names = sorted id String.leb names'.
Proof.
  intros Hp.
  apply (sorted_perm_unique (fun x y => String.leb (id x) (id y) = true)).
  - intros a b. apply String.leb_antisym.
  - apply sorted_sorted; [apply String.leb_total|apply string_leb_trans].
  - apply sorted_sorted; [apply String.leb_total|apply string_leb_trans].
  - rewrite !sorted_perm. exact Hp.
Qed.

(** Sorting sizes forgets the order they were stored in. *)
Lemma sorted_sizes_independent (sizes sizes' : list Z) :
  Permutation sizes sizes' ->
  sorted id Z.leb sizes = sorted id Z.leb sizes'.
Proof.
  intros Hp. apply (sorted_perm_unique Z.le).
  - intros a b. lia.
  - apply sorted_Z_ascending.
  - apply sorted_Z_ascending.
  - rewrite (proj2 (sorted_Z_ascending sizes)),
      (proj2 (sorted_Z_ascending sizes')). exact Hp.
Qed.

(** ** Claims about the sweep series *)

(** C4: the lines of [plot_duckdb_write_bench] have their sizes ascending,
    whatever order they were collected in.  The series of
    [plot_sqllog_varied] does not depend on the order the directory lists
    its entries in, but it is ordered by directory name compared as text:
    for the sizes 10000, 50000 and 200000 it comes out as 10000, 200000,
    50000, which is not ascending by size. *)
Theorem sweep_series_order :
  (forall ms results ls,
     Duckdb.draw ms results = inr ls ->
     Forall (fun l => StronglySorted Z.le (xs l)) ls) /\
  (forall children children',
     Permutation children children' ->
     Varied.visit_order children = Varied.visit_order children') /\
  Varied.visit_order ["10000"; "50000"; "200000"; "report"] =
  ["10000"; "200000"; "50000"; "report"] /\
  Varied.extract_series (conv := numerals_only) sweep_group
    "sqllog_write_file" start =
  (start,
   inr (Some ([10000; 200000; 50000]%Z, [0.01; 0.2; 0.05]%float))) /\
  ~ StronglySorted Z.le [10000; 200000; 50000]%Z.
Proof.
  split; [|split; [|split; [reflexivity|split; [reflexivity|]]]].
  - intros ms results ls H. apply duckdb_lines_ascending in H.
    induction H as [|m l ms ls (_ & Hs & _) _ IH]; constructor; auto.
  - apply sorted_names_independent.
  - intros H. inversion H as [|? ? H1 _]; subst.
    inversion H1 as [|? ? _ H2]; subst.
    inversion H2 as [|? ? H3 _]; subst. lia.
Qed.

(** C8, as amended: a case that has an estimate and whose directory name is
    not an integer is keyed by the number of points collected before it;
    it is kept, with its value, and the loop goes on with the next entry. *)
Theorem malformed_name_keeps_case {conv : Conversions} (cwd : node)
    (base : path) (d : string) (rest : list string)
    (sizes : list Z) (vals : list float) (w : world) (t : float) :
  is_dir cwd (base ++ [d]) = true ->
  measured cwd (base ++ [d]) t ->
  int_of_str d = None ->
  Varied.series_loop cwd base (d :: rest) sizes vals w =
  Varied.series_loop cwd base rest
    (sizes ++ [Z.of_nat (List.length sizes)]) (vals ++ [normalize t]) w.
Proof.
  intros Hd Hm Hint. rewrite (varied_step_measured cwd base d rest _ _ w t Hd Hm).
  unfold Varied.append_size. now rewrite Hint.
Qed.

Lemma malformed_name_keeps_case_witness :
  Varied.series_loop (conv := numerals_only) sweep_with_words
    (Varied.root ++ ["sqllog_write_file"]) ["small"] [10000%Z] [0.05%float]
    start =
  (start, inr ([10000; 1]%Z, [0.05; 0.01]%float)).
Proof.
  rewrite (malformed_name_keeps_case (conv := numerals_only) sweep_with_words
             (Varied.root ++ ["sqllog_write_file"]) "small" [] [10000%Z]
             [0.05%float] start 0.01%float).
  - reflexivity.
  - reflexivity.
  - exists (primary (Varied.root ++ ["sqllog_write_file"; "small"])),
      (estimates (JFloat 0.012) (JFloat 0.01)).
    repeat split.
  - reflexivity.
Defined.

(** C8 as stated fails: ["small"] is the third entry the loop visits, after
    ["large"] and ["report"]; [report] holds no result file and is skipped,
    and the key of ["small"] is 1, not its position 2. *)
Lemma positional_key_counterexample :
  iterdir sweep_with_words (Varied.root ++ ["sqllog_write_file"]) =
  inr ["small"; "report"; "large"] /\
  Varied.visit_order ["small"; "report"; "large"] =
  ["large"; "report"; "small"] /\
  nth_error (Varied.visit_order ["small"; "report"; "large"]) 2 = Some "small" /\
  int_of_str (Conversions := numerals_only) "small" = None /\
  Varied.extract_series (conv := numerals_only) sweep_with_words
    "sqllog_write_file" start =
  (start, inr (Some ([0; 1]%Z, [0.25; 0.01]%float))).
Proof. repeat split. Qed.

(** ** What the loops store *)

Section Stored.
Context {conv : Conversions} {mpl : Matplotlib} (cwd : node).

(** The four ways a case can go. *)
Lemma case_outcome case :
  no_result_file cwd case \/ no_point_estimate cwd case \/
  (exists t, measured cwd case t) \/ (exists e, unreadable cwd case e).
Proof.
  unfold no_result_file, no_point_estimate, measured, unreadable.
  destruct (locate cwd case) as [p|]; [|now left].
  right. destruct (read_json cwd p) as [e|doc] eqn:Hdoc.
  { right; right. exists e, p. auto. }
  destruct (is_none (extract doc)) eqn:Hnone.
  { left. exists p, doc. auto. }
  right. destruct (float_of (extract doc)) as [e|t] eqn:Ht.
  - right. exists e, p. split; [reflexivity|]. right. exists doc. auto.
  - left. exists t, p, doc. auto.
Qed.

Lemma datetime_step_unreadable name rest results w e :
  unreadable cwd (Datetime.root ++ [name]) e ->
  Datetime.collect cwd (name :: rest) results w = (w, inl e).
Proof.
  intros (p & Hp & [Hdoc|(doc & Hdoc & Hsome & Ht)]); cbn [Datetime.collect];
    rewrite Hp; unfold bind at 1, lift at 1; rewrite Hdoc; [reflexivity|].
  rewrite Hsome. unfold bind at 1, lift at 1. now rewrite Ht.
Qed.

(** Every binding the loop adds is the normalized estimate of its case. *)
Lemma datetime_collect_stores names : forall results w w' results',
  Datetime.collect cwd names results w = (w', inr results') ->
  images w' = images w /\
  forall name v,
    slookup name results' = Some v ->
    slookup name results = Some v \/
    exists t, measured cwd (Datetime.root ++ [name]) t /\ v = normalize t.
Proof.
  induction names as [|n rest IH]; intros results w w' results'.
  - intros [= <- <-]. auto.
  - destruct (case_outcome (Datetime.root ++ [n]))
      as [H|[H|[[t H]|[e H]]]].
    + rewrite (datetime_step_no_file cwd n rest results w H).
      intros Hrun. now apply IH in Hrun.
    + rewrite (datetime_step_no_estimate cwd n rest results w H).
      intros Hrun. now apply IH in Hrun.
    + rewrite (datetime_step_measured cwd n rest results w t H).
      intros Hrun. apply IH in Hrun. destruct Hrun as [Himg Hres].
      split; [exact Himg|]. intros name v Hv.
      destruct (Hres name v Hv) as [Hold|Hnew]; [|now right].
      destruct (String.eqb_spec name n) as [->|Hne].
      * rewrite slookup_ssetitem_same in Hold. injection Hold as <-.
        right. now exists t.
      * rewrite slookup_ssetitem_other in Hold by assumption. now left.
    + rewrite (datetime_step_unreadable n rest results w e H). discriminate.
Qed.

Lemma datetime_getitems_lookup results names : forall vals,
  Datetime.getitems results names = inr vals ->
  Forall2 (fun n v => slookup n results = Some v) names vals.
Proof.
  induction names as [|n names IH]; simpl; intros vals.
  - intros [= <-]. constructor.
  - destruct (slookup n results) as [v|] eqn:Hn; [|discriminate].
    destruct (Datetime.getitems results names) as [e|vs]; [discriminate|].
    intros [= <-]. constructor; auto.
Qed.


End Stored.

(** ** The two passes of [plot_duckdb_write_bench] *)

Section DuckdbStored.
Context {conv : Conversions} {mpl : Matplotlib} (cwd : node).

Lemma empty_table_lookup ms m inner :
  slookup m (Duckdb.empty_table ms) = Some inner -> inner = [].
Proof.
  unfold Duckdb.empty_table.
  assert (H : forall r : Duckdb.table,
             (forall m inner, slookup m r = Some inner -> inner = []) ->
             forall m inner,
               slookup m (fold_left (fun r m => ssetitem m [] r) ms r) = Some inner ->
               inner = []).
  { induction ms as [|m0 ms IH]; intros r Hr; simpl; [exact Hr|].
    apply IH. intros m' inner'.
    destruct (String.eqb_spec m' m0) as [->|Hne].
    - rewrite slookup_ssetitem_same. now intros [= <-].
    - rewrite slookup_ssetitem_other by assumption. apply Hr. }
  apply H. intros m' inner'. discriminate.
Qed.

Lemma raw_table_empty ms : raw_table cwd (Duckdb.empty_table ms).
Proof.
  intros m inner H. apply empty_table_lookup in H. subst inner.
  split; [constructor|]. intros s v. discriminate.
Qed.

Lemma raw_table_store m s t inner results :
  raw_table cwd results -> slookup m results = Some inner ->
  measured cwd (Duckdb.root ++ [m; str_of_int s]) t ->
  raw_table cwd (ssetitem m (setitem Z.eqb s t inner) results).
Proof.
  intros Hraw Hm Ht m' inner'.
  destruct (String.eqb_spec m' m) as [->|Hne].
  - rewrite slookup_ssetitem_same. intros [= <-].
    destruct (Hraw m inner Hm) as [Hnd Hin]. split.
    + apply keys_setitem_NoDup; [apply Z.eqb_eq|exact Hnd].
    + intros s' v. destruct (Z.eq_dec s' s) as [->|Hs].
      * rewrite lookup_setitem_same by apply Z.eqb_eq. now intros [= <-].
      * rewrite lookup_setitem_other by (apply Z.eqb_eq || assumption).
        apply Hin.
  - rewrite slookup_ssetitem_other by assumption. apply Hraw.
Qed.

Lemma duckdb_step_unreadable m s rest results w e :
  unreadable cwd (Duckdb.root ++ [m; str_of_int s]) e ->
  Duckdb.collect_sizes cwd m (s :: rest) results w = (w, inl e).
Proof.
  intros (p & Hp & [Hdoc|(doc & Hdoc & Hsome & Ht)]);
    cbn [Duckdb.collect_sizes];
    rewrite Hp; unfold bind at 1, lift at 1; rewrite Hdoc; [reflexivity|].
  rewrite Hsome. unfold bind at 1, lift at 1. now rewrite Ht.
Qed.

Lemma duckdb_step_no_mode m s rest results w t :
  measured cwd (Duckdb.root ++ [m; str_of_int s]) t ->
  slookup m results = None ->
  Duckdb.collect_sizes cwd m (s :: rest) results w = (w, inl KeyError).
Proof.
  intros (p & doc & Hp & Hdoc & Hsome & Ht) Hm. cbn [Duckdb.collect_sizes].
  rewrite Hp. unfold bind at 1, lift at 1. rewrite Hdoc, Hsome.
  unfold bind at 1, lift at 1. rewrite Ht.
  unfold bind at 1, lift at 1, Duckdb.set2. now rewrite Hm.
Qed.

Lemma duckdb_collect_sizes_raw m ss : forall results w w' results',
  raw_table cwd results ->
  Duckdb.collect_sizes cwd m ss results w = (w', inr results') ->
  images w' = images w /\ raw_table cwd results'.
Proof.
  induction ss as [|s rest IH]; intros results w w' results' Hraw.
  - intros [= <- <-]. auto.
  - destruct (case_outcome cwd (Duckdb.root ++ [m; str_of_int s]))
      as [H|[H|[[t H]|[e H]]]].
    + rewrite (duckdb_step_no_file cwd m s rest results w H).
      intros Hrun. now apply IH in Hrun.
    + rewrite (duckdb_step_no_estimate cwd m s rest results w H).
      intros Hrun. now apply IH in Hrun.
    + destruct (slookup m results) as [inner|] eqn:Hm.
      * rewrite (duckdb_step_measured cwd m s rest results inner w t H Hm).
        apply IH. now apply raw_table_store.
      * rewrite (duckdb_step_no_mode m s rest results w t H Hm). discriminate.
    + rewrite (duckdb_step_unreadable m s rest results w e H). discriminate.
Qed.

Lemma duckdb_collect_raw ms ss : forall results w w' results',
  raw_table cwd results ->
  Duckdb.collect cwd ms ss results w = (w', inr results') ->
  images w' = images w /\ raw_table cwd results'.
Proof.
  induction ms as [|m rest IH]; intros results w w' results' Hraw.
  - intros [= <- <-]. auto.
  - cbn [Duckdb.collect]. unfold bind at 1.
    destruct (Duckdb.collect_sizes cwd m ss results w) as [w1 [e|r1]] eqn:H1;
      [discriminate|].
    apply duckdb_collect_sizes_raw in H1; [|assumption].
    destruct H1 as [Himg1 Hraw1]. intros Hrun.
    apply IH in Hrun; [|assumption]. destruct Hrun as [Himg Hraw'].
    split; [congruence|assumption].
Qed.

End DuckdbStored.

Section DuckdbRescale.

Lemma keys_normalized {K} (d : dict K float) : keys (normalized d) = keys d.
Proof. unfold keys, normalized. rewrite map_map. reflexivity. Qed.

Lemma normalized_app {K} (d d' : dict K float) :
  normalized (d ++ d') = normalized d ++ normalized d'.
Proof. apply map_app. Qed.


(** The second pass over one mode: the items already visited hold
    normalized times, the others are still to come. *)
Lemma rescale_items_spec m its : forall seen results,
  NoDup (keys (seen ++ its)) ->
  slookup m results = Some (seen ++ its) ->
  Duckdb.rescale_items m its results =
  inr (ssetitem m (seen ++ normalized its) results).
Proof.
  induction its as [|[s t] rest IH]; intros seen results Hnd Hm.
  - simpl. rewrite app_nil_r in *. f_equal.
    clear Hnd. revert Hm. unfold ssetitem, slookup.
    induction results as [|[k v] r IHr]; simpl; [discriminate|].
    destruct (String.eqb m k); [now intros [= ->]|].
    intros H. f_equal. now apply IHr.
  - assert (Hs : ~ In s (keys seen)).
    { unfold keys in Hnd. rewrite map_app in Hnd. simpl in Hnd.
      apply NoDup_remove_2 in Hnd. intros Hin. apply Hnd.
      apply in_or_app. now left. }
    assert (Hstep : forall v,
      Duckdb.set2 m s v results =
      inr (ssetitem m ((seen ++ [(s, v)]) ++ rest) results)).
    { intros v. unfold Duckdb.set2, Duckdb.table, dict in *. rewrite Hm.
      rewrite (setitem_middle Z.eqb Z.eqb_eq) by assumption.
      now rewrite <- app_assoc. }
    assert (Hnext : forall v (r : Duckdb.table),
      slookup m r = Some ((seen ++ [(s, v)]) ++ rest) ->
      Duckdb.rescale_items m rest r =
      inr (ssetitem m ((seen ++ [(s, v)]) ++ normalized rest) r)).
    { intros v r Hr. apply IH; [|exact Hr].
      unfold keys in *. rewrite <- app_assoc. rewrite !map_app in *.
      exact Hnd. }
    cbn [Duckdb.rescale_items normalized map fst snd].
    unfold normalize.
    destruct (1e6 <? t)%float; [|destruct (1e3 <? t)%float].
    + rewrite Hstep. cbv beta iota.
      rewrite (Hnext _ _ (slookup_ssetitem_same _ _ _)).
      unfold ssetitem. rewrite (setitem_setitem String.eqb String.eqb_eq).
      now rewrite <- app_assoc.
    + rewrite Hstep. cbv beta iota.
      rewrite (Hnext _ _ (slookup_ssetitem_same _ _ _)).
      unfold ssetitem. rewrite (setitem_setitem String.eqb String.eqb_eq).
      now rewrite <- app_assoc.
    + rewrite (Hnext t results) by (now rewrite <- app_assoc).
      now rewrite <- app_assoc.
Qed.

Lemma rescale_spec ms : forall results results',
  NoDup ms ->
  (forall m inner, slookup m results = Some inner -> NoDup (keys inner)) ->
  Duckdb.rescale ms results = inr results' ->
  forall m inner',
    slookup m results' = Some inner' ->
    exists inner,
      slookup m results = Some inner /\
      (In m ms -> inner' = normalized inner) /\
      (~ In m ms -> inner' = inner).
Proof.
  induction ms as [|m0 rest IH]; intros results results' Hnd Hkeys.
  - intros [= <-] m inner' Hm. exists inner'. simpl. tauto.
  - cbn [Duckdb.rescale].
    destruct (slookup m0 results) as [inner0|] eqn:Hm0; [|discriminate].
    rewrite (rescale_items_spec m0 (items inner0) [] results)
      by (try apply Hkeys with m0; assumption).
    cbn [app]. intros Hrun m inner' Hm.
    inversion Hnd as [|? ? Hnotin Hnd']; subst.
    assert (Hkeys1 : forall m inner,
      slookup m (ssetitem m0 (normalized (items inner0)) results) = Some inner ->
      NoDup (keys inner)).
    { intros m1 inner1. destruct (String.eqb_spec m1 m0) as [->|Hne].
      - rewrite slookup_ssetitem_same. intros [= <-].
        rewrite keys_normalized. now apply Hkeys with m0.
      - rewrite slookup_ssetitem_other by assumption. apply Hkeys. }
    destruct (IH _ _ Hnd' Hkeys1 Hrun m inner' Hm)
      as (inner1 & H1 & Hin & Hout).
    destruct (String.eqb_spec m m0) as [->|Hne].
    + rewrite slookup_ssetitem_same in H1. injection H1 as <-.
      exists inner0. split; [exact Hm0|]. split; [|simpl; tauto].
      intros _. now apply Hout.
    + rewrite slookup_ssetitem_other in H1 by assumption.
      exists inner1. split; [exact H1|]. simpl. split.
      * intros [->|H]; [congruence|auto].
      * intros H. apply Hout. tauto.
Qed.

End DuckdbRescale.

Section DuckdbChart.
Context {conv : Conversions} {mpl : Matplotlib} (cwd : node).

Lemma duckdb_getitems_lookup inner xs : forall ys,
  Duckdb.getitems inner xs = inr ys ->
  Forall2 (fun x y => lookup Z.eqb x inner = Some y) xs ys.
Proof.
  induction xs as [|x xs IH]; simpl; intros ys.
  - intros [= <-]. constructor.
  - destruct (lookup Z.eqb x inner) as [v|] eqn:Hx; [|discriminate].
    destruct (Duckdb.getitems inner xs) as [e|vs]; [discriminate|].
    intros [= <-]. constructor; auto.
Qed.

Lemma draw_lines ms results : forall ls,
  Duckdb.draw ms results = inr ls ->
  Forall2 (fun m l =>
             label l = Some m /\
             exists inner,
               slookup m results = Some inner /\
               Forall2 (fun x y => lookup Z.eqb x inner = Some y) (xs l) (ys l))
    ms ls.
Proof.
  induction ms as [|m ms IH]; intros ls; simpl.
  - intros [= <-]. constructor.
  - destruct (slookup m results) as [inner|] eqn:Hm; [|discriminate].
    destruct (Duckdb.getitems inner _) as [e|vs] eqn:Hvs; [discriminate|].
    destruct (Duckdb.draw ms results) as [e|ls'] eqn:Hd; [discriminate|].
    intros [= <-]. constructor; [|now apply IH].
    cbn [label xs ys]. split; [reflexivity|].
    exists inner. split; [exact Hm|]. now apply duckdb_getitems_lookup.
Qed.

Lemma Forall2_impl_In {A B} (P Q : A -> B -> Prop) (l : list A) (l' : list B) :
  (forall a b, In a l -> P a b -> Q a b) -> Forall2 P l l' -> Forall2 Q l l'.
Proof.
  intros H HP. induction HP as [|a b l l' Hab _ IH]; constructor.
  - apply H; [now left|exact Hab].
  - apply IH. intros a' b' Hin. apply H. now right.
Qed.


End DuckdbChart.

(** ** Signs *)










(** ** Claims about what a series holds *)

Section Series.
Context {conv : Conversions} {mpl : Matplotlib} (cwd : node).


Lemma measured_resolved case t :
  measured cwd case t ->
  ~ no_result_file cwd case /\ ~ no_point_estimate cwd case.
Proof.
  intros (p & doc & Hp & Hdoc & Hsome & _). split.
  - unfold no_result_file. congruence.
  - intros (p' & doc' & Hp' & Hdoc' & Hnone). congruence.
Qed.

Lemma varied_step_unreadable base d rest sizes vals w e :
  is_dir cwd (base ++ [d]) = true ->
  unreadable cwd (base ++ [d]) e ->
  Varied.series_loop cwd base (d :: rest) sizes vals w = (w, inl e).
Proof.
  intros Hd (p & Hp & [Hdoc|(doc & Hdoc & Hsome & Ht)]);
    cbn [Varied.series_loop]; rewrite Hd, Hp; cbn [negb];
    unfold bind at 1, lift at 1; rewrite Hdoc; [reflexivity|].
  rewrite Hsome. unfold bind at 1, lift at 1. now rewrite Ht.
Qed.




End Series.




(** * Further properties of the scripts *)

(** ** Estimate extractor, continued *)

Lemma get_not_none k d v : get k d = v -> v <> JNull -> slookup k d = Some v.
Proof.
  unfold get. destruct (slookup k d) as [v'|]; intros <- H; congruence.
Qed.

(** X1: an estimate the extractor returns is never made up: it is the value
    stored under ["point_estimate"] in a dict that is itself a top-level
    value of a dict document; for any other document there is no estimate. *)
Theorem extract_reads_a_point_estimate (data v : json) :
  extract data = v -> v <> JNull ->
  exists d k o,
    data = JObj d /\ In (k, JObj o) d /\ slookup "point_estimate" o = Some v.
Proof.
  intros He Hv. destruct data as [| | | | | |d]; try (simpl in He; congruence).
  exists d.
  destruct (dict_valued_dec "median" d) as [[m Hm]|Hmed].
  { exists "median", m. split; [reflexivity|]. split.
    - now apply (lookup_In String.eqb String.eqb_eq).
    - apply get_not_none; [|exact Hv]. unfold extract in He. now rewrite Hm in He. }
  destruct (dict_valued_dec "mean" d) as [[m Hm]|Hmean].
  { exists "mean", m. split; [reflexivity|]. split.
    - now apply (lookup_In String.eqb String.eqb_eq).
    - apply get_not_none; [|exact Hv]. now rewrite <- (extract_mean d m Hmed Hm). }
  rewrite (extract_not_median_mean d Hmed Hmean) in He.
  destruct (scan_values_cases d) as [Hnone|(b & k & o & a & Hd & Hb & Ho)].
  - rewrite (scan_values_none d Hnone) in He. congruence.
  - exists k, o. split; [reflexivity|]. split.
    + rewrite Hd. apply in_or_app. right. now left.
    + apply get_not_none; [|exact Hv].
      rewrite <- He, Hd. symmetry. now apply scan_values_first.
Qed.

Lemma extract_reads_a_point_estimate_witness :
  exists d k o,
    estimates (JFloat 1.25) (JInt 4200) = JObj d /\
    In (k, JObj o) d /\ slookup "point_estimate" o = Some (JInt 4200).
Proof.
  apply (extract_reads_a_point_estimate
           (estimates (JFloat 1.25) (JInt 4200)) (JInt 4200)).
  - reflexivity.
  - discriminate.
Defined.

Lemma slookup_permutation {V} (d d' : sdict V) k :
  Permutation d d' -> NoDup (keys d) -> slookup k d = slookup k d'.
Proof.
  induction 1 as [|[k0 v0] d d' Hp IH|[k1 v1] [k2 v2] d|d d1 d2 Hp1 IH1 Hp2 IH2];
    intros Hnd.
  - reflexivity.
  - cbn [keys map fst] in Hnd. apply NoDup_cons_iff in Hnd.
    unfold slookup in *. cbn [lookup].
    destruct (String.eqb k k0); [reflexivity|]. now apply IH.
  - cbn [keys map fst] in Hnd. apply NoDup_cons_iff in Hnd.
    destruct Hnd as [Hnotin _]. unfold slookup. cbn [lookup].
    destruct (String.eqb_spec k k2) as [E2|H2],
      (String.eqb_spec k k1) as [E1|H1]; try reflexivity.
    exfalso. apply Hnotin. left. congruence.
  - rewrite IH1 by assumption. apply IH2.
    unfold keys. eapply Permutation_NoDup; [|exact Hnd].
    now apply Permutation_map.
Qed.

(** X2: when the document has a dict-valued ["median"] or ["mean"], the
    estimate does not depend on the order of the top-level keys; only the
    generic scan reads the insertion order. *)
Theorem extract_ignores_key_order (d d' : sdict json) :
  Permutation d d' -> NoDup (keys d) ->
  Spec.dict_valued "median" d \/ Spec.dict_valued "mean" d ->
  extract (JObj d) = extract (JObj d').
Proof.
  intros Hp Hnd H. unfold extract.
  rewrite <- (slookup_permutation d d' "median" Hp Hnd).
  rewrite <- (slookup_permutation d d' "mean" Hp Hnd).
  destruct H as [[m Hm]|[m Hm]].
  - now rewrite Hm.
  - rewrite Hm. destruct (slookup "median" d) as [[]|]; reflexivity.
Qed.

Lemma extract_ignores_key_order_witness :
  extract (estimates (JFloat 1.25) (JFloat 1.5)) =
  extract (JObj [("median", JObj [("confidence_interval", JObj []);
                                  ("point_estimate", JFloat 1.5)]);
                 ("mean", JObj [("confidence_interval", JObj []);
                                ("point_estimate", JFloat 1.25)])]).
Proof.
  apply extract_ignores_key_order.
  - apply perm_swap.
  - repeat constructor; simpl; intuition discriminate.
  - left. eexists. reflexivity.
Defined.

(** ** Result locator, continued *)

(** X3: a located path is one of the two layouts and exists, so reading it
    never fails with [FileNotFoundError]; and the primary layout is taken
    whenever it exists, even if the secondary exists too. *)
Theorem located_file_exists (cwd : node) (case p : path) :
  locate cwd case = Some p ->
  (p = primary case \/ p = secondary case) /\
  (p = secondary case -> exists_ cwd (primary case) = false) /\
  exists_ cwd p = true /\
  read_json cwd p <> inl FileNotFoundError.
Proof.
  unfold locate. intros H.
  assert (Hex : exists_ cwd p = true /\
                (p = primary case \/
                 p = secondary case /\ exists_ cwd (primary case) = false)).
  { destruct (exists_ cwd (primary case)) eqn:H1; cbn [negb] in H.
    - rewrite H1 in H. cbn [negb] in H. injection H as <-. auto.
    - destruct (exists_ cwd (secondary case)) eqn:H2; cbn [negb] in H;
        [|discriminate].
      injection H as <-. auto. }
  destruct Hex as [Hex Hp]. split; [tauto|]. split.
  - intros ->. destruct Hp as [Hp|[_ Hp]]; [|exact Hp].
    exfalso. revert Hp. unfold primary, secondary. intros Hp.
    apply app_inv_head in Hp. discriminate.
  - split; [exact Hex|].
    unfold exists_, read_json in *.
    destruct (resolve cwd p) as [[[doc| | |]|]|]; discriminate.
Qed.

Lemma located_file_exists_witness :
  read_json new_layout_only
    (secondary (Datetime.root ++ ["custom_valid"])) <> inl FileNotFoundError.
Proof.
  apply (located_file_exists new_layout_only
           (Datetime.root ++ ["custom_valid"])).
  reflexivity.
Defined.

(** ** [plot_datetime_bench]: which bars, in which order *)

Section DictKeys.
Context {K V : Type} (eqb : K -> K -> bool).
Hypothesis eqb_eq : forall a b, eqb a b = true <-> a = b.

Lemma keys_setitem_present k v (d : dict K V) :
  In k (keys d) -> keys (setitem eqb k v d) = keys d.
Proof.
  induction d as [|[k0 v0] d IH]; simpl; [easy|].
  destruct (eqb k k0) eqn:E; simpl; [reflexivity|].
  intros [->|Hin].
  - now rewrite (eqb_refl_true eqb eqb_eq) in E.
  - f_equal. now apply IH.
Qed.

Lemma keys_setitem_absent k v (d : dict K V) :
  ~ In k (keys d) -> keys (setitem eqb k v d) = keys d ++ [k].
Proof.
  induction d as [|[k0 v0] d IH]; simpl; [reflexivity|].
  intros Hnotin. rewrite (eqb_neq_false eqb eqb_eq) by intuition congruence.
  simpl. f_equal. apply IH. tauto.
Qed.

End DictKeys.

Lemma StronglySorted_remove {A} (R : A -> A -> Prop) (l1 l2 : list A) x :
  StronglySorted R (l1 ++ x :: l2) -> StronglySorted R (l1 ++ l2).
Proof.
  induction l1 as [|y l1 IH]; simpl; intros H;
    inversion H as [|? ? Hs Hall]; subst; [exact Hs|].
  constructor; [now apply IH|].
  rewrite Forall_forall in *. intros z Hz. apply Hall.
  apply in_app_or in Hz. apply in_or_app. destruct Hz; [now left|right; now right].
Qed.

Lemma Permutation_filter {A} (f : A -> bool) (l l' : list A) :
  Permutation l l' -> Permutation (filter f l) (filter f l').
Proof.
  induction 1 as [|x l l' _ IH|x y l|l l1 l2 _ IH1 _ IH2]; simpl.
  - constructor.
  - destruct (f x); [now constructor|exact IH].
  - destruct (f x), (f y); try reflexivity. apply perm_swap.
  - now transitivity (filter f l1).
Qed.

Section DatetimeBars.
Context {conv : Conversions} {mpl : Matplotlib} (cwd : node).

Let name_le (a b : string) : Prop := String.leb a b = true.

(** What one run of the loop does to the dict and to the output. *)
Lemma datetime_collect_trace names : forall results w w' results',
  Datetime.collect cwd names results w = (w', inr results') ->
  exists logs,
    stdout w' = stdout w ++ logs /\
    incl (keys results') (keys results ++ names) /\
    (NoDup (keys results) -> NoDup (keys results')) /\
    (StronglySorted name_le (keys results ++ names) ->
     StronglySorted name_le (keys results')) /\
    (NoDup (keys results ++ names) ->
     List.length (keys results') + List.length logs =
     List.length (keys results) + List.length names).
Proof.
  induction names as [|n rest IH]; intros results w w' results'.
  - intros [= <- <-]. exists []. rewrite !app_nil_r.
    repeat split; auto. apply incl_refl.
  - assert (Hskip : forall line,
      Datetime.collect cwd rest results (logged line w) = (w', inr results') ->
      exists logs,
        stdout w' = stdout w ++ logs /\
        incl (keys results') (keys results ++ n :: rest) /\
        (NoDup (keys results) -> NoDup (keys results')) /\
        (StronglySorted name_le (keys results ++ n :: rest) ->
         StronglySorted name_le (keys results')) /\
        (NoDup (keys results ++ n :: rest) ->
         List.length (keys results') + List.length logs =
         List.length (keys results) + List.length (n :: rest))).
    { intros line Hrun. apply IH in Hrun.
      destruct Hrun as (logs & Hout & Hincl & Hnd & Hsort & Hlen).
      exists (line :: logs). cbn [logged stdout] in Hout.
      rewrite <- app_assoc in Hout. split; [exact Hout|]. split.
      { intros k Hk. apply Hincl in Hk. apply in_app_or in Hk.
        apply in_or_app. destruct Hk; [now left|right; now right]. }
      split; [exact Hnd|]. split.
      { intros H. apply Hsort. now apply StronglySorted_remove in H. }
      intros H. apply NoDup_remove_1 in H. specialize (Hlen H).
      cbn [List.length]. lia. }
    destruct (case_outcome cwd (Datetime.root ++ [n]))
      as [H|[H|[[t H]|[e H]]]].
    + rewrite (datetime_step_no_file cwd n rest results w H). apply Hskip.
    + rewrite (datetime_step_no_estimate cwd n rest results w H). apply Hskip.
    + rewrite (datetime_step_measured cwd n rest results w t H).
      intros Hrun. apply IH in Hrun.
      destruct Hrun as (logs & Hout & Hincl & Hnd & Hsort & Hlen).
      exists logs. split; [exact Hout|]. split.
      { intros k Hk. apply Hincl in Hk. apply in_app_or in Hk.
        apply in_or_app. destruct Hk as [Hk|Hk]; [|right; now right].
        apply (keys_setitem_In String.eqb) in Hk.
        destruct Hk as [->|Hk]; [right; now left|now left]. }
      split.
      { intros H0. apply Hnd.
        now apply (keys_setitem_NoDup String.eqb String.eqb_eq). }
      split.
      { intros H0. apply Hsort. unfold ssetitem.
        destruct (in_dec string_dec n (keys results)) as [Hin|Hout'].
        - rewrite (keys_setitem_present String.eqb String.eqb_eq) by assumption.
          now apply StronglySorted_remove in H0.
        - rewrite (keys_setitem_absent String.eqb String.eqb_eq) by assumption.
          now rewrite <- app_assoc. }
      intros H0. pose proof (NoDup_remove_2 _ _ _ H0) as Hn.
      assert (Hout' : ~ In n (keys results))
        by (intros Hin; apply Hn, in_or_app; now left).
      unfold ssetitem in Hlen.
      rewrite (keys_setitem_absent String.eqb String.eqb_eq) in Hlen
        by assumption.
      rewrite <- app_assoc in Hlen. specialize (Hlen H0).
      rewrite length_app in Hlen. cbn [List.length] in *. lia.
    + rewrite (datetime_step_unreadable cwd n rest results w e H). discriminate.
Qed.

Lemma accounted_length names bars logs :
  accounted cwd names bars logs ->
  List.length bars + List.length logs = List.length names.
Proof. induction 1; cbn [List.length]; lia. Qed.

(** The loop as a whole: the bars are appended in visiting order, and the
    printed lines are those of the benches left out. *)
Lemma datetime_collect_accounted names : forall results w w' results',
  NoDup (keys results ++ names) ->
  Datetime.collect cwd names results w = (w', inr results') ->
  exists bars logs,
    accounted cwd names bars logs /\
    keys results' = keys results ++ bars /\
    stdout w' = stdout w ++ logs.
Proof.
  induction names as [|n rest IH]; intros results w w' results' Hnd.
  - intros [= <- <-]. exists [], []. rewrite !app_nil_r.
    repeat split. constructor.
  - pose proof (NoDup_remove_1 _ _ _ Hnd) as Hnd'.
    destruct (case_outcome cwd (Datetime.root ++ [n]))
      as [H|[H|[[t H]|[e H]]]].
    + rewrite (datetime_step_no_file cwd n rest results w H). intros Hrun.
      destruct (IH _ _ _ _ Hnd' Hrun) as (bars & logs & Hacc & Hk & Hout).
      exists bars, (("Missing estimates for " ++ n)%string :: logs).
      split; [now apply accounted_missing|]. split; [exact Hk|].
      cbn [logged stdout] in Hout. now rewrite <- app_assoc in Hout.
    + rewrite (datetime_step_no_estimate cwd n rest results w H). intros Hrun.
      destruct (IH _ _ _ _ Hnd' Hrun) as (bars & logs & Hacc & Hk & Hout).
      exists bars, (("Could not find median for " ++ n)%string :: logs).
      split; [now apply accounted_no_median|]. split; [exact Hk|].
      cbn [logged stdout] in Hout. now rewrite <- app_assoc in Hout.
    + rewrite (datetime_step_measured cwd n rest results w t H). intros Hrun.
      assert (Hout' : ~ In n (keys results)).
      { intros Hin. apply (NoDup_remove_2 _ _ _ Hnd), in_or_app. now left. }
      assert (Hk0 : keys (ssetitem n (normalize t) results) =
                    keys results ++ [n])
        by now apply (keys_setitem_absent String.eqb String.eqb_eq).
      destruct (IH (ssetitem n (normalize t) results) w w' results')
        as (bars & logs & Hacc & Hk & Hout).
      { rewrite Hk0, <- app_assoc. exact Hnd. }
      { exact Hrun. }
      exists (n :: bars), logs.
      split; [now apply accounted_bar with t|]. split; [|exact Hout].
      rewrite Hk, Hk0, <- app_assoc. reflexivity.
    + rewrite (datetime_step_unreadable cwd n rest results w e H). discriminate.
Qed.

(** A bench with an estimate is among the keys when the loop ends. *)
Lemma datetime_collect_keeps names : forall results w w' results',
  Datetime.collect cwd names results w = (w', inr results') ->
  forall n,
    In n (keys results) \/
    (In n names /\ exists t, measured cwd (Datetime.root ++ [n]) t) ->
    In n (keys results').
Proof.
  induction names as [|n0 rest IH]; intros results w w' results'.
  - intros [= <- <-] n [H|[[] _]]. exact H.
  - assert (Hskip : forall line,
      (forall t, ~ measured cwd (Datetime.root ++ [n0]) t) ->
      Datetime.collect cwd rest results (logged line w) = (w', inr results') ->
      forall n,
        In n (keys results) \/
        (In n (n0 :: rest) /\
         exists t, measured cwd (Datetime.root ++ [n]) t) ->
        In n (keys results')).
    { intros line Hno Hrun n Hn. apply (IH _ _ _ _ Hrun).
      destruct Hn as [Hn|[[<-|Hn] (t & Ht)]]; [now left| |right; eauto].
      now destruct (Hno t). }
    destruct (case_outcome cwd (Datetime.root ++ [n0]))
      as [H|[H|[[t0 H]|[e H]]]].
    + rewrite (datetime_step_no_file cwd n0 rest results w H). apply Hskip.
      intros t Ht. now destruct (measured_resolved cwd _ t Ht).
    + rewrite (datetime_step_no_estimate cwd n0 rest results w H). apply Hskip.
      intros t Ht. now destruct (measured_resolved cwd _ t Ht).
    + rewrite (datetime_step_measured cwd n0 rest results w t0 H).
      intros Hrun n Hn. apply (IH _ _ _ _ Hrun).
      assert (Hkeys : forall k, k = n0 \/ In k (keys results) ->
                       In k (keys (ssetitem n0 (normalize t0) results))).
      { intros k Hk. unfold ssetitem.
        destruct (in_dec string_dec n0 (keys results)) as [Hin|Hout].
        - rewrite (keys_setitem_present String.eqb String.eqb_eq)
            by assumption.
          destruct Hk as [->|Hk]; assumption.
        - rewrite (keys_setitem_absent String.eqb String.eqb_eq)
            by assumption.
          apply in_or_app. destruct Hk as [->|Hk]; [right; now left|now left]. }
      destruct Hn as [Hn|[[<-|Hn] Ht]]; [left|left|right; now split];
        apply Hkeys; auto.
    + rewrite (datetime_step_unreadable cwd n0 rest results w e H). discriminate.
Qed.

Lemma datetime_getitems_keys results : forall names,
  incl names (keys results) ->
  exists vals, Datetime.getitems results names = inr vals /\
               List.length vals = List.length names.
Proof.
  induction names as [|n names IH]; intros Hincl; simpl.
  - now exists [].
  - destruct (lookup_keys String.eqb String.eqb_eq n results) as [v Hv].
    { apply Hincl. now left. }
    unfold slookup. rewrite Hv.
    destruct IH as (vals & -> & Hlen).
    { intros k Hk. apply Hincl. now right. }
    exists (v :: vals). simpl. now rewrite Hlen.
Qed.

(** A run of the script finishes exactly when the root is a directory, the
    loop ends without an exception, and the figure can be written. *)
Lemma datetime_finished_iff w w' :
  Datetime.main cwd w = (w', inr tt) <->
  exists children w1 results vals,
    iterdir cwd Datetime.root = inr children /\
    Datetime.collect cwd
      (sorted id String.leb (Datetime.sub_benches cwd children)) [] w =
    (w1, inr results) /\
    mkdir_parents cwd Datetime.out_dir = inr tt /\
    Datetime.getitems results (keys results) = inr vals /\
    forallb draws (keys results) = true /\
    is_dir cwd Datetime.out = false /\
    w' = {| stdout := stdout w1 ++ [("Wrote " ++ path_str Datetime.out)%string];
            images := images w1 ++ [(Datetime.out, Bar (keys results) vals)] |}.
Proof.
  unfold Datetime.main. split.
  - destruct (exists_ cwd Datetime.root); [|discriminate].
    cbn [negb]. unfold bind at 1, lift at 1.
    destruct (iterdir cwd Datetime.root) as [e|children]; [discriminate|].
    unfold bind at 1.
    destruct (Datetime.collect cwd _ [] w) as [w1 [e|results]] eqn:Hrun;
      [discriminate|].
    unfold bind at 1, lift at 1.
    destruct (mkdir_parents cwd Datetime.out_dir) as [e|[]]; [discriminate|].
    unfold bind at 1, lift at 1.
    destruct (Datetime.getitems results (keys results)) as [e|vals] eqn:Hvals;
      [discriminate|].
    unfold bind at 1, tight_layout.
    destruct (forallb draws (keys results)) eqn:Hdraw; [|discriminate].
    unfold ret, bind at 1, savefig.
    destruct (is_dir cwd Datetime.out) eqn:Hout; [discriminate|].
    unfold print. intros [= <-]. cbn [stdout images].
    exists children, w1, results, vals. repeat split; auto.
  - intros (children & w1 & results & vals &
            Hit & Hrun & Hmk & Hvals & Hdraw & Hout & ->).
    assert (Hroot : exists_ cwd Datetime.root = true).
    { unfold iterdir in Hit. unfold exists_.
      destruct (resolve cwd Datetime.root); [reflexivity|discriminate]. }
    rewrite Hroot. cbn [negb]. unfold bind at 1, lift at 1. rewrite Hit.
    unfold bind at 1. rewrite Hrun.
    unfold bind at 1, lift at 1. rewrite Hmk.
    unfold bind at 1, lift at 1. rewrite Hvals.
    unfold bind at 1, tight_layout. rewrite Hdraw.
    unfold ret, bind at 1, savefig. rewrite Hout. reflexivity.
Qed.

End DatetimeBars.

Section DatetimeRuns.
Context {conv : Conversions} {mpl : Matplotlib} (cwd : node).

Lemma datetime_collect_total names : forall results w,
  (forall name e, In name names ->
                  ~ unreadable cwd (Datetime.root ++ [name]) e) ->
  exists w' results', Datetime.collect cwd names results w = (w', inr results').
Proof.
  induction names as [|n rest IH]; intros results w Hok.
  - now exists w, results.
  - assert (Hrest : forall name e, In name rest ->
                      ~ unreadable cwd (Datetime.root ++ [name]) e)
      by (intros name e Hin; apply Hok; now right).
    destruct (case_outcome cwd (Datetime.root ++ [n]))
      as [H|[H|[[t H]|[e H]]]].
    + rewrite (datetime_step_no_file cwd n rest results w H). now apply IH.
    + rewrite (datetime_step_no_estimate cwd n rest results w H). now apply IH.
    + rewrite (datetime_step_measured cwd n rest results w t H). now apply IH.
    + exfalso. apply (Hok n e); [now left|exact H].
Qed.

Lemma sub_benches_In children n :
  In n (sorted id String.leb (Datetime.sub_benches cwd children)) ->
  In n children /\ is_dir cwd (Datetime.root ++ [n]) = true /\ n <> "report".
Proof.
  intros Hin.
  apply (Permutation_in _ (sorted_perm id String.leb _)) in Hin.
  unfold Datetime.sub_benches in Hin. apply filter_In in Hin.
  destruct Hin as [Hin Hf]. apply andb_prop in Hf. destruct Hf as [Hd Hr].
  split; [exact Hin|]. split; [exact Hd|].
  intros ->. discriminate.
Qed.

End DatetimeRuns.

(** X4: the bars of a finished [plot_datetime_bench] run are named in
    ascending order of name, no name twice; each names a sub-directory of
    the root other than [report], and there is one value per name. *)
Theorem datetime_bars_in_name_order {conv : Conversions} {mpl : Matplotlib}
    (cwd : node) (w w' : world) :
  Datetime.main cwd w = (w', inr tt) ->
  exists names vals,
    images w' = images w ++ [(Datetime.out, Bar names vals)] /\
    StronglySorted (fun a b => String.leb a b = true) names /\
    NoDup names /\
    List.length vals = List.length names /\
    Forall (fun n => is_dir cwd (Datetime.root ++ [n]) = true /\ n <> "report")
      names.
Proof.
  intros Hrun. apply datetime_finished_iff in Hrun.
  destruct Hrun as (children & w1 & results & vals &
                   Hit & Hrun & _ & Hvals & _ & _ & ->).
  pose proof (datetime_collect_stores cwd _ _ _ _ _ Hrun) as [Himg _].
  apply datetime_collect_trace in Hrun.
  destruct Hrun as (logs & _ & Hincl & Hnd & Hsort & _).
  exists (keys results), vals. cbn [images app keys map] in *.
  split; [now rewrite Himg|]. split.
  { apply Hsort.
    apply (sorted_sorted id String.leb String.leb_total string_leb_trans). }
  split; [apply Hnd; constructor|]. split.
  { apply datetime_getitems_lookup in Hvals. symmetry.
    exact (Forall2_length Hvals). }
  apply Forall_forall. intros n Hn. apply Hincl in Hn.
  now apply sub_benches_In in Hn.
Qed.

Lemma datetime_bars_in_name_order_witness :
  exists names vals,
    [(Datetime.out, Bar ["custom_valid"; "regex_valid"] [0.0042; 875.0]%float)] =
    [] ++ [(Datetime.out, Bar names vals)] /\
    StronglySorted (fun a b => String.leb a b = true) names /\
    NoDup names /\
    List.length vals = List.length names /\
    Forall (fun n => is_dir three_benches (Datetime.root ++ [n]) = true /\
                     n <> "report") names.
Proof.
  apply (datetime_bars_in_name_order (conv := numerals_only)
    (mpl := plain_text_only) three_benches start
    {| stdout := ["Missing estimates for chrono_valid";
                  "Wrote docs/bench_results/datetime_validation.png"];
       images := [(Datetime.out,
                   Bar ["custom_valid"; "regex_valid"] [0.0042; 875.0]%float)] |}).
  reflexivity.
Defined.

(** X5: the order in which [plot_datetime_bench] visits the benches does not
    depend on the order in which the directory lists its entries. *)
Theorem datetime_bench_order_independent (cwd : node)
    (children children' : list string) :
  Permutation children children' ->
  sorted id String.leb (Datetime.sub_benches cwd children) =
  sorted id String.leb (Datetime.sub_benches cwd children').
Proof.
  intros Hp. apply sorted_names_independent.
  unfold Datetime.sub_benches. now apply Permutation_filter.
Qed.

Lemma datetime_bench_order_independent_witness :
  sorted id String.leb
    (Datetime.sub_benches three_benches
       ["regex_valid"; "report"; "custom_valid"; "chrono_valid"]) =
  sorted id String.leb
    (Datetime.sub_benches three_benches
       (rev ["regex_valid"; "report"; "custom_valid"; "chrono_valid"])).
Proof.
  apply datetime_bench_order_independent. apply Permutation_rev.
Defined.

(** X6: in a finished [plot_datetime_bench] run over distinct entries every
    bench directory is accounted for, in visiting order: a bench with an
    estimate is the next bar of the chart, a bench without a result file
    prints ["Missing estimates for <name>"], a bench whose file holds no
    estimate prints ["Could not find median for <name>"]; nothing else is
    printed before the line naming the written file, which comes last. *)
Theorem datetime_every_bench_accounted {conv : Conversions} {mpl : Matplotlib}
    (cwd : node) (w w' : world) (children : list string) :
  iterdir cwd Datetime.root = inr children ->
  NoDup children ->
  Datetime.main cwd w = (w', inr tt) ->
  exists names vals logs,
    accounted cwd (sorted id String.leb (Datetime.sub_benches cwd children))
      names logs /\
    images w' = images w ++ [(Datetime.out, Bar names vals)] /\
    stdout w' =
    stdout w ++ logs ++ ["Wrote docs/bench_results/datetime_validation.png"] /\
    List.length names + List.length logs =
    List.length (Datetime.sub_benches cwd children).
Proof.
  intros Hit Hnd Hrun. apply datetime_finished_iff in Hrun.
  destruct Hrun as (children0 & w1 & results & vals &
                    Hit0 & Hrun & _ & _ & _ & _ & ->).
  rewrite Hit in Hit0. injection Hit0 as <-.
  pose proof (datetime_collect_stores cwd _ _ _ _ _ Hrun) as [Himg _].
  apply datetime_collect_accounted in Hrun.
  2:{ cbn [keys map app]. eapply Permutation_NoDup.
      - apply Permutation_sym, sorted_perm.
      - unfold Datetime.sub_benches. now apply NoDup_filter. }
  destruct Hrun as (bars & logs & Hacc & Hk & Hout).
  cbn [keys map app] in Hk. fold (keys results) in Hk.
  exists (keys results), vals, logs. cbn [images stdout].
  split; [now rewrite Hk|]. split; [now rewrite Himg|]. split.
  { rewrite Hout, <- app_assoc. reflexivity. }
  rewrite Hk, (accounted_length cwd _ _ _ Hacc).
  apply Permutation_length, sorted_perm.
Qed.

Lemma datetime_every_bench_accounted_witness :
  exists names vals logs,
    accounted (conv := numerals_only) three_benches
      (sorted id String.leb
         (Datetime.sub_benches three_benches
            ["regex_valid"; "report"; "custom_valid"; "chrono_valid"]))
      names logs /\
    [(Datetime.out, Bar ["custom_valid"; "regex_valid"] [0.0042; 875.0]%float)] =
    [] ++ [(Datetime.out, Bar names vals)] /\
    ["Missing estimates for chrono_valid";
     "Wrote docs/bench_results/datetime_validation.png"] =
    [] ++ logs ++ ["Wrote docs/bench_results/datetime_validation.png"] /\
    List.length names + List.length logs = 3.
Proof.
  apply (datetime_every_bench_accounted (conv := numerals_only)
    (mpl := plain_text_only) three_benches start
    {| stdout := ["Missing estimates for chrono_valid";
                  "Wrote docs/bench_results/datetime_validation.png"];
       images := [(Datetime.out,
                   Bar ["custom_valid"; "regex_valid"] [0.0042; 875.0]%float)] |}
    ["regex_valid"; "report"; "custom_valid"; "chrono_valid"]).
  - reflexivity.
  - repeat constructor; simpl; intuition discriminate.
  - reflexivity.
Defined.

(** X7: [plot_datetime_bench] finishes, with exit status 0, whenever the
    root is a directory, no located result file is unreadable, the output
    directory can be made, Matplotlib can lay out the name of every bench
    that has an estimate, and the image path is not a directory; the dict
    lookups of the plotting step never fail. *)
Theorem datetime_run_finishes {conv : Conversions} {mpl : Matplotlib}
    (cwd : node) (w : world) (children : list string) :
  iterdir cwd Datetime.root = inr children ->
  (forall name e, In name children ->
                  ~ unreadable cwd (Datetime.root ++ [name]) e) ->
  mkdir_parents cwd Datetime.out_dir = inr tt ->
  (forall name t, In name children ->
                  measured cwd (Datetime.root ++ [name]) t ->
                  draws name = true) ->
  is_dir cwd Datetime.out = false ->
  exists w',
    Datetime.main cwd w = (w', inr tt) /\
    exit_status (snd (Datetime.main cwd w)) = 0%Z.
Proof.
  intros Hit Hok Hmk Hdraw Hout.
  destruct (datetime_collect_total cwd
              (sorted id String.leb (Datetime.sub_benches cwd children)) [] w)
    as (w1 & results & Hrun).
  { intros name e Hin. apply sub_benches_In in Hin. now apply Hok. }
  destruct (datetime_getitems_keys results (keys results) (incl_refl _))
    as (vals & Hvals & _).
  assert (Hlabels : forallb draws (keys results) = true).
  { apply forallb_forall. intros n Hn.
    destruct (lookup_keys String.eqb String.eqb_eq n results Hn) as [v Hv].
    pose proof (datetime_collect_stores cwd _ _ _ _ _ Hrun) as [_ Hres].
    destruct (Hres n v Hv) as [Hold|(t & Hm & _)]; [discriminate|].
    apply (Hdraw n t); [|exact Hm].
    destruct (datetime_collect_trace cwd _ _ _ _ _ Hrun)
      as (logs & _ & Hincl & _).
    apply Hincl in Hn. cbn [keys map app] in Hn.
    now apply sub_benches_In in Hn. }
  assert (Hmain : Datetime.main cwd w =
    ({| stdout := stdout w1 ++ [("Wrote " ++ path_str Datetime.out)%string];
        images := images w1 ++ [(Datetime.out, Bar (keys results) vals)] |},
     inr tt)).
  { apply datetime_finished_iff.
    exists children, w1, results, vals. repeat split; auto. }
  eexists. split; [exact Hmain|]. now rewrite Hmain.
Qed.

Lemma datetime_run_finishes_witness :
  exists w',
    Datetime.main (conv := numerals_only) (mpl := plain_text_only)
      three_benches start = (w', inr tt) /\
    exit_status
      (snd (Datetime.main (conv := numerals_only) (mpl := plain_text_only)
              three_benches start)) = 0%Z.
Proof.
  apply (datetime_run_finishes (conv := numerals_only)
           (mpl := plain_text_only) three_benches start
           ["regex_valid"; "report"; "custom_valid"; "chrono_valid"]).
  - reflexivity.
  - intros name e Hin (p & Hp & H).
    destruct Hin as [<-|[<-|[<-|[<-|[]]]]]; vm_compute in Hp;
      try discriminate; injection Hp as <-;
      (destruct H as [H|(doc & H & _ & H')];
       [vm_compute in H; discriminate|]);
      vm_compute in H; injection H as <-; vm_compute in H'; discriminate.
  - reflexivity.
  - intros name t Hin _.
    destruct Hin as [<-|[<-|[<-|[<-|[]]]]]; reflexivity.
  - reflexivity.
Defined.

(** X16: a bench that has an estimate and whose name Matplotlib cannot lay
    out as a tick label (["$$"], an empty formula) ends the run of
    [plot_datetime_bench] after the loop: [plt.tight_layout()] raises
    [ValueError], no image is saved and the exit status is 1. *)
Theorem undrawable_bench_name_ends_the_run {conv : Conversions}
    {mpl : Matplotlib} (cwd : node) (w : world) (children : list string)
    (name : string) (t : float) :
  iterdir cwd Datetime.root = inr children ->
  (forall n e, In n children ->
               ~ unreadable cwd (Datetime.root ++ [n]) e) ->
  mkdir_parents cwd Datetime.out_dir = inr tt ->
  In name (Datetime.sub_benches cwd children) ->
  measured cwd (Datetime.root ++ [name]) t ->
  draws name = false ->
  exists w1,
    Datetime.main cwd w = (w1, inl ValueError) /\
    images w1 = images w /\
    exit_status (snd (Datetime.main cwd w)) = 1%Z.
Proof.
  intros Hit Hok Hmk Hin Hm Hdraw.
  destruct (datetime_collect_total cwd
              (sorted id String.leb (Datetime.sub_benches cwd children)) [] w)
    as (w1 & results & Hrun).
  { intros n e Hn. apply sub_benches_In in Hn. now apply Hok. }
  destruct (datetime_getitems_keys results (keys results) (incl_refl _))
    as (vals & Hvals & _).
  pose proof (datetime_collect_stores cwd _ _ _ _ _ Hrun) as [Himg _].
  assert (Hkey : In name (keys results)).
  { apply (datetime_collect_keeps cwd _ _ _ _ _ Hrun). right. split; [|eauto].
    now apply (Permutation_in _
                 (Permutation_sym (sorted_perm id String.leb _))). }
  assert (Hlabels : forallb draws (keys results) = false).
  { destruct (forallb draws (keys results)) eqn:E; [|reflexivity].
    rewrite forallb_forall in E. rewrite (E name Hkey) in Hdraw.
    discriminate. }
  assert (Hroot : exists_ cwd Datetime.root = true).
  { unfold iterdir in Hit. unfold exists_.
    destruct (resolve cwd Datetime.root); [reflexivity|discriminate]. }
  assert (Hmain : Datetime.main cwd w = (w1, inl ValueError)).
  { unfold Datetime.main. rewrite Hroot. cbn [negb].
    unfold bind at 1, lift at 1. rewrite Hit.
    unfold bind at 1. rewrite Hrun.
    unfold bind at 1, lift at 1. rewrite Hmk.
    unfold bind at 1, lift at 1. rewrite Hvals.
    unfold bind at 1, tight_layout. rewrite Hlabels. reflexivity. }
  exists w1. split; [exact Hmain|]. split; [exact Himg|]. now rewrite Hmain.
Qed.

Lemma undrawable_bench_name_ends_the_run_witness :
  exists w1,
    Datetime.main (conv := numerals_only) (mpl := plain_text_only)
      dollar_bench start = (w1, inl ValueError) /\
    images w1 = [] /\
    exit_status
      (snd (Datetime.main (conv := numerals_only) (mpl := plain_text_only)
              dollar_bench start)) = 1%Z.
Proof.
  apply (undrawable_bench_name_ends_the_run (conv := numerals_only)
           (mpl := plain_text_only) dollar_bench start
           ["regex_valid"; "$$"] "$$" 0.2%float).
  - reflexivity.
  - intros n e Hin (p & Hp & H).
    destruct Hin as [<-|[<-|[]]]; vm_compute in Hp;
      try discriminate; injection Hp as <-;
      (destruct H as [H|(doc & H & _ & H')];
       [vm_compute in H; discriminate|]);
      vm_compute in H; injection H as <-; vm_compute in H'; discriminate.
  - reflexivity.
  - right. now left.
  - exists (primary (Datetime.root ++ ["$$"])). eexists.
    repeat split; reflexivity.
  - reflexivity.
Defined.

(** ** Result files that cannot be read *)

Section Unreadable.
Context {conv : Conversions} {mpl : Matplotlib} (cwd : node).

Lemma locate_resolves case p :
  locate cwd case = Some p -> exists n, resolve cwd p = Some n.
Proof.
  unfold locate. intros H.
  assert (Hex : exists_ cwd p = true).
  { destruct (exists_ cwd (primary case)) eqn:H1; cbn [negb] in H.
    - rewrite H1 in H. cbn [negb] in H. now injection H as <-.
    - destruct (exists_ cwd (secondary case)) eqn:H2; cbn [negb] in H;
        [|discriminate].
      now injection H as <-. }
  unfold exists_ in Hex. destruct (resolve cwd p) as [n|]; [eauto|discriminate].
Qed.

Lemma float_of_errors v e :
  float_of v = inl e -> In e [TypeError; ValueError; OverflowError].
Proof.
  destruct v as [|b|z|f|s|l|l]; cbn [float_of]; try discriminate;
    try (intros [= <-]; simpl; tauto).
  - unfold float_of_int.
    destruct (binary_normalize prec emax z 0 false); try discriminate.
    intros [= <-]. simpl. tauto.
  - destruct (float_of_str s); [discriminate|].
    intros [= <-]. simpl. tauto.
Qed.

Lemma sqllog_bench_unreadable w e :
  exists_ cwd SqllogBench.root = true ->
  unreadable cwd SqllogBench.root e ->
  SqllogBench.main cwd w = (w, inl e).
Proof.
  intros Hroot (p & Hp & [Hdoc|(doc & Hdoc & Hsome & Ht)]);
    unfold SqllogBench.main; rewrite Hroot, Hp; cbn [negb];
    unfold bind at 1, lift at 1; rewrite Hdoc; [reflexivity|].
  rewrite Hsome. unfold bind at 1, lift at 1. now rewrite Ht.
Qed.

End Unreadable.

(** X8: a result file that is found but cannot be used (reading or
    decoding it fails, or its estimate does not convert to a float) is not
    skipped: the loop that meets it ends at once with the exception that
    was raised, which is never the script's own [SystemExit], having printed
    and stored nothing for the case; the cases after it are not visited. *)
Theorem unreadable_file_ends_the_run {conv : Conversions} (cwd : node)
    (case : path) (e : exn) :
  unreadable cwd case e ->
  (forall msg, e <> SystemExit msg) /\
  (forall name rest results w,
     case = Datetime.root ++ [name] ->
     Datetime.collect cwd (name :: rest) results w = (w, inl e)) /\
  (forall m s rest results w,
     case = Duckdb.root ++ [m; str_of_int s] ->
     Duckdb.collect_sizes cwd m (s :: rest) results w = (w, inl e)) /\
  (forall base d rest sizes vals w,
     case = base ++ [d] -> is_dir cwd case = true ->
     Varied.series_loop cwd base (d :: rest) sizes vals w = (w, inl e)) /\
  (forall w,
     case = SqllogBench.root -> exists_ cwd case = true ->
     SqllogBench.main cwd w = (w, inl e)).
Proof.
  intros Hu. split; [|repeat split].
  - intros msg ->. destruct Hu as (p & Hp & [Hdoc|(doc & _ & _ & Ht)]).
    + now apply read_json_no_exit in Hdoc.
    + now apply float_of_no_exit in Ht.
  - intros name rest results w ->. now apply datetime_step_unreadable.
  - intros m s rest results w ->. now apply duckdb_step_unreadable.
  - intros base d rest sizes vals w -> Hd. now apply varied_step_unreadable.
  - intros w -> Hroot. now apply sqllog_bench_unreadable.
Qed.

Lemma unreadable_file_ends_the_run_witness :
  Datetime.collect (conv := numerals_only) broken_bench
    ["regex_valid"; "custom_valid"] [] start = (start, inl UnicodeDecodeError).
Proof.
  destruct (unreadable_file_ends_the_run (conv := numerals_only) broken_bench
              (Datetime.root ++ ["regex_valid"]) UnicodeDecodeError)
    as (_ & H & _).
  - exists (primary (Datetime.root ++ ["regex_valid"])).
    split; [reflexivity|]. left. reflexivity.
  - now apply H.
Defined.

(** ** [plot_sqllog_bench], from root check to saved bar *)

(** X12: [plot_sqllog_bench] finishes exactly when its root exists, its one
    case has an estimate, the output directory can be made and the image
    path is not a directory; it then saves a single bar holding the
    normalized estimate and prints the path it wrote. *)
Theorem sqllog_bench_finishes_iff {conv : Conversions} (cwd : node)
    (w w' : world) :
  SqllogBench.main cwd w = (w', inr tt) <->
  exists t,
    exists_ cwd SqllogBench.root = true /\
    measured cwd SqllogBench.root t /\
    mkdir_parents cwd SqllogBench.out_dir = inr tt /\
    is_dir cwd SqllogBench.out = false /\
    w' = {| stdout := stdout w ++
                      ["Wrote docs/bench_results/sqllog_from_file_1m.png"];
            images := images w ++
                      [(SqllogBench.out,
                        Bar ["sqllog_from_file_1m"] [normalize t])] |}.
Proof.
  unfold SqllogBench.main. split.
  - destruct (exists_ cwd SqllogBench.root); [|discriminate]. cbn [negb].
    destruct (locate cwd SqllogBench.root) as [p|] eqn:Hp; [|discriminate].
    unfold bind at 1, lift at 1.
    destruct (read_json cwd p) as [e|doc] eqn:Hdoc; [discriminate|].
    destruct (is_none (extract doc)) eqn:Hsome; [discriminate|].
    unfold bind at 1, lift at 1.
    destruct (float_of (extract doc)) as [e|t] eqn:Ht; [discriminate|].
    unfold bind at 1, lift at 1.
    destruct (mkdir_parents cwd SqllogBench.out_dir) as [e|[]] eqn:Hmk;
      [discriminate|].
    unfold bind at 1, savefig.
    destruct (is_dir cwd SqllogBench.out) eqn:Hout; [discriminate|].
    unfold print. intros [= <-]. cbn [stdout images].
    exists t. repeat split; auto. exists p, doc. auto.
  - intros (t & Hroot & (p & doc & Hp & Hdoc & Hsome & Ht) & Hmk & Hout & ->).
    rewrite Hroot, Hp. cbn [negb]. unfold bind at 1, lift at 1.
    rewrite Hdoc, Hsome. unfold bind at 1, lift at 1. rewrite Ht.
    unfold bind at 1, lift at 1. rewrite Hmk.
    unfold bind at 1, savefig. rewrite Hout. reflexivity.
Qed.

Lemma sqllog_bench_finishes_iff_witness :
  SqllogBench.main (conv := numerals_only) one_bench start =
  ({| stdout := ["Wrote docs/bench_results/sqllog_from_file_1m.png"];
      images := [(SqllogBench.out, Bar ["sqllog_from_file_1m"] [2.5%float])] |},
   inr tt).
Proof.
  apply (sqllog_bench_finishes_iff (conv := numerals_only) one_bench start).
  exists 2500000000%float. split; [reflexivity|]. split.
  - exists (primary SqllogBench.root),
      (estimates (JFloat 2600000000) (JInt 2500000000)).
    repeat split.
  - repeat split.
Defined.

(** ** [plot_duckdb_write_bench]: the table, pass by pass *)

Section DuckdbTable.
Context {conv : Conversions} {mpl : Matplotlib} (cwd : node).

(** Every mode of the list has a dict in the table. *)
Let has_modes (ms : list string) (results : Duckdb.table) : Prop :=
  forall m, In m ms -> exists inner, slookup m results = Some inner.

Lemma empty_table_has_modes ms : has_modes ms (Duckdb.empty_table ms).
Proof.
  unfold has_modes, Duckdb.empty_table.
  assert (H : forall (r : Duckdb.table) m,
             In m ms \/ (exists inner, slookup m r = Some inner) ->
             exists inner,
               slookup m (fold_left (fun r m => ssetitem m [] r) ms r) =
               Some inner).
  { induction ms as [|m0 ms IH]; intros r m; simpl.
    - intros [[]|H]; exact H.
    - intros [[->|Hin]|[inner Hm]]; apply IH.
      + right. rewrite slookup_ssetitem_same. eauto.
      + now left.
      + right. destruct (String.eqb_spec m m0) as [->|Hne].
        * rewrite slookup_ssetitem_same. eauto.
        * rewrite slookup_ssetitem_other by assumption. eauto. }
  intros m Hin. apply H. now left.
Qed.

(** The first pass over one mode only adds sizes of its list, to the dict of
    that mode, and loses no dict. *)
Lemma duckdb_collect_sizes_trace m ss : forall results w w' results',
  Duckdb.collect_sizes cwd m ss results w = (w', inr results') ->
  (forall m0 inner, slookup m0 results = Some inner ->
                    exists inner', slookup m0 results' = Some inner') /\
  (forall m0 inner', slookup m0 results' = Some inner' ->
     exists inner, slookup m0 results = Some inner /\
                   incl (keys inner') (keys inner ++ ss)).
Proof.
  induction ss as [|s rest IH]; intros results w w' results'.
  - intros [= <- <-]. split; [eauto|].
    intros m0 inner' H. exists inner'. split; [exact H|].
    rewrite app_nil_r. apply incl_refl.
  - assert (Hskip : forall w0,
      Duckdb.collect_sizes cwd m rest results w0 = (w', inr results') ->
      (forall m0 inner, slookup m0 results = Some inner ->
                        exists inner', slookup m0 results' = Some inner') /\
      (forall m0 inner', slookup m0 results' = Some inner' ->
         exists inner, slookup m0 results = Some inner /\
                       incl (keys inner') (keys inner ++ s :: rest))).
    { intros w0 Hrun. apply IH in Hrun. destruct Hrun as [Hfwd Hbwd].
      split; [exact Hfwd|]. intros m0 inner' H.
      destruct (Hbwd m0 inner' H) as (inner & Hin & Hincl).
      exists inner. split; [exact Hin|]. intros k Hk.
      apply Hincl in Hk. apply in_app_or in Hk. apply in_or_app.
      destruct Hk; [now left|right; now right]. }
    destruct (case_outcome cwd (Duckdb.root ++ [m; str_of_int s]))
      as [H|[H|[[t H]|[e H]]]].
    + rewrite (duckdb_step_no_file cwd m s rest results w H). apply Hskip.
    + rewrite (duckdb_step_no_estimate cwd m s rest results w H). apply Hskip.
    + destruct (slookup m results) as [inner|] eqn:Hm.
      * rewrite (duckdb_step_measured cwd m s rest results inner w t H Hm).
        intros Hrun. apply IH in Hrun. destruct Hrun as [Hfwd Hbwd]. split.
        -- intros m0 inner0 H0. destruct (String.eqb_spec m0 m) as [->|Hne].
           ++ eapply Hfwd. apply slookup_ssetitem_same.
           ++ eapply Hfwd. rewrite slookup_ssetitem_other by assumption.
              exact H0.
        -- intros m0 inner' H0.
           destruct (Hbwd m0 inner' H0) as (inner1 & Hin & Hincl).
           destruct (String.eqb_spec m0 m) as [->|Hne].
           ++ rewrite slookup_ssetitem_same in Hin. injection Hin as <-.
              exists inner. split; [exact Hm|]. intros k Hk.
              apply Hincl in Hk. apply in_app_or in Hk. apply in_or_app.
              destruct Hk as [Hk|Hk]; [|right; now right].
              apply (keys_setitem_In Z.eqb) in Hk.
              destruct Hk as [->|Hk]; [right; now left|now left].
           ++ rewrite slookup_ssetitem_other in Hin by assumption.
              exists inner1. split; [exact Hin|]. intros k Hk.
              apply Hincl in Hk. apply in_app_or in Hk. apply in_or_app.
              destruct Hk; [now left|right; now right].
      * rewrite (duckdb_step_no_mode cwd m s rest results w t H Hm).
        discriminate.
    + rewrite (duckdb_step_unreadable cwd m s rest results w e H). discriminate.
Qed.

Lemma duckdb_collect_trace ms ss : forall results w w' results',
  Duckdb.collect cwd ms ss results w = (w', inr results') ->
  (forall m0 inner, slookup m0 results = Some inner ->
                    exists inner', slookup m0 results' = Some inner') /\
  (forall m0 inner', slookup m0 results' = Some inner' ->
     exists inner, slookup m0 results = Some inner /\
                   incl (keys inner') (keys inner ++ ss)).
Proof.
  induction ms as [|m rest IH]; intros results w w' results'.
  - intros [= <- <-]. split; [eauto|].
    intros m0 inner' H. exists inner'. split; [exact H|].
    apply incl_appl, incl_refl.
  - cbn [Duckdb.collect]. unfold bind at 1.
    destruct (Duckdb.collect_sizes cwd m ss results w) as [w1 [e|r1]] eqn:H1;
      [discriminate|].
    apply duckdb_collect_sizes_trace in H1. destruct H1 as [Hfwd1 Hbwd1].
    intros Hrun. apply IH in Hrun. destruct Hrun as [Hfwd Hbwd]. split.
    + intros m0 inner H0. destruct (Hfwd1 m0 inner H0) as [inner1 Hin1].
      now apply Hfwd with inner1.
    + intros m0 inner' H0.
      destruct (Hbwd m0 inner' H0) as (inner1 & Hin1 & Hincl1).
      destruct (Hbwd1 m0 inner1 Hin1) as (inner & Hin & Hincl).
      exists inner. split; [exact Hin|]. intros k Hk.
      apply Hincl1 in Hk. apply in_app_or in Hk.
      destruct Hk as [Hk|Hk]; [now apply Hincl|].
      apply in_or_app. now right.
Qed.

Lemma duckdb_collect_sizes_total m ss : forall results w,
  (exists inner, slookup m results = Some inner) ->
  (forall s e, In s ss ->
               ~ unreadable cwd (Duckdb.root ++ [m; str_of_int s]) e) ->
  exists w' results', Duckdb.collect_sizes cwd m ss results w = (w', inr results').
Proof.
  induction ss as [|s rest IH]; intros results w Hm Hok.
  - now exists w, results.
  - assert (Hrest : forall s0 e, In s0 rest ->
                      ~ unreadable cwd (Duckdb.root ++ [m; str_of_int s0]) e)
      by (intros s0 e Hin; apply Hok; now right).
    destruct (case_outcome cwd (Duckdb.root ++ [m; str_of_int s]))
      as [H|[H|[[t H]|[e H]]]].
    + rewrite (duckdb_step_no_file cwd m s rest results w H). now apply IH.
    + rewrite (duckdb_step_no_estimate cwd m s rest results w H). now apply IH.
    + destruct Hm as [inner Hm].
      rewrite (duckdb_step_measured cwd m s rest results inner w t H Hm).
      apply IH; [|exact Hrest].
      rewrite slookup_ssetitem_same. eauto.
    + exfalso. apply (Hok s e); [now left|exact H].
Qed.

Lemma duckdb_collect_total ms ss : forall results w,
  has_modes ms results ->
  (forall m s e, In m ms -> In s ss ->
                 ~ unreadable cwd (Duckdb.root ++ [m; str_of_int s]) e) ->
  exists w' results', Duckdb.collect cwd ms ss results w = (w', inr results').
Proof.
  induction ms as [|m rest IH]; intros results w Hm Hok.
  - now exists w, results.
  - cbn [Duckdb.collect]. unfold bind at 1.
    destruct (duckdb_collect_sizes_total m ss results w) as (w1 & r1 & H1).
    { apply Hm. now left. }
    { intros s e Hs. apply Hok; [now left|exact Hs]. }
    rewrite H1.
    apply IH.
    + intros m0 Hin. destruct (Hm m0) as [inner Hinner]; [now right|].
      now apply (proj1 (duckdb_collect_sizes_trace _ _ _ _ _ _ H1)) with inner.
    + intros m0 s e Hin. apply Hok. now right.
Qed.

(** The second pass succeeds on every table that has the modes, and leaves
    in each of them the normalized times. *)
Lemma rescale_total ms : forall results,
  NoDup ms -> has_modes ms results ->
  (forall m inner, slookup m results = Some inner -> NoDup (keys inner)) ->
  exists results',
    Duckdb.rescale ms results = inr results' /\
    forall m inner,
      slookup m results = Some inner ->
      (In m ms -> slookup m results' = Some (normalized inner)) /\
      (~ In m ms -> slookup m results' = Some inner).
Proof.
  induction ms as [|m0 rest IH]; intros results Hnd Hm Hkeys.
  - exists results. split; [reflexivity|]. intros m inner H. simpl. tauto.
  - destruct (Hm m0) as [inner0 Hm0]; [now left|].
    inversion Hnd as [|? ? Hnotin Hnd']; subst.
    cbn [Duckdb.rescale]. rewrite Hm0.
    rewrite (rescale_items_spec m0 (items inner0) [] results)
      by (try apply Hkeys with m0; assumption).
    cbn [app].
    destruct (IH (ssetitem m0 (normalized (items inner0)) results) Hnd')
      as (results' & Hrun & Hres).
    + intros m Hin. destruct (String.eqb_spec m m0) as [->|Hne].
      * rewrite slookup_ssetitem_same. eauto.
      * rewrite slookup_ssetitem_other by assumption. apply Hm. now right.
    + intros m inner. destruct (String.eqb_spec m m0) as [->|Hne].
      * rewrite slookup_ssetitem_same. intros [= <-].
        rewrite keys_normalized. now apply Hkeys with m0.
      * rewrite slookup_ssetitem_other by assumption. apply Hkeys.
    + exists results'. split; [exact Hrun|]. intros m inner Hin.
      destruct (String.eqb_spec m m0) as [->|Hne].
      * rewrite Hm0 in Hin. injection Hin as <-. split; [|simpl; tauto].
        intros _. apply Hres; [apply slookup_ssetitem_same|exact Hnotin].
      * destruct (Hres m inner) as [H1 H2].
        { now rewrite slookup_ssetitem_other by assumption. }
        split.
        -- intros [->|H]; [congruence|auto].
        -- intros H. apply H2. simpl in H. tauto.
Qed.

Lemma duckdb_getitems_keys inner : forall l,
  incl l (keys inner) ->
  exists vs, Duckdb.getitems inner l = inr vs.
Proof.
  induction l as [|x l IH]; intros Hincl; simpl.
  - now exists [].
  - destruct (lookup_keys Z.eqb Z.eqb_eq x inner) as [v Hv].
    { apply Hincl. now left. }
    rewrite Hv. destruct IH as (vs & ->).
    { intros k Hk. apply Hincl. now right. }
    now exists (v :: vs).
Qed.

Lemma draw_total ms results :
  has_modes ms results -> exists ls, Duckdb.draw ms results = inr ls.
Proof.
  induction ms as [|m ms IH]; intros Hm; simpl.
  - now exists [].
  - destruct (Hm m) as [inner Hinner]; [now left|]. rewrite Hinner.
    destruct (duckdb_getitems_keys inner (sorted id Z.leb (keys inner)))
      as (vs & ->).
    { intros k Hk. now apply (Permutation_in _ (sorted_perm id Z.leb _)) in Hk. }
    destruct IH as (ls & ->).
    { intros m0 Hin. apply Hm. now right. }
    eauto.
Qed.

(** A run of the script finishes exactly when the root exists, both passes
    and the drawing loop end without an exception, and the figure can be
    written. *)
Lemma duckdb_finished_iff ms ss w w' :
  Duckdb.run cwd ms ss w = (w', inr tt) <->
  exists w1 r1 r2 ls,
    exists_ cwd Duckdb.root = true /\
    Duckdb.collect cwd ms ss (Duckdb.empty_table ms) w = (w1, inr r1) /\
    Duckdb.rescale ms r1 = inr r2 /\
    mkdir_parents cwd Duckdb.out_dir = inr tt /\
    Duckdb.draw ms r2 = inr ls /\
    is_dir cwd Duckdb.out_path = false /\
    w' = {| stdout := stdout w1 ++ [("Wrote " ++ path_str Duckdb.out_path)%string];
            images := images w1 ++ [(Duckdb.out_path, Lines true ls)] |}.
Proof.
  unfold Duckdb.run. split.
  - destruct (exists_ cwd Duckdb.root); [|discriminate].
    cbn [negb]. unfold bind at 1.
    destruct (Duckdb.collect cwd ms ss _ w) as [w1 [e|r1]] eqn:H1;
      [discriminate|].
    unfold bind at 1, lift at 1.
    destruct (Duckdb.rescale ms r1) as [e|r2] eqn:H2; [discriminate|].
    unfold bind at 1, lift at 1.
    destruct (mkdir_parents cwd Duckdb.out_dir) as [e|[]] eqn:Hmk;
      [discriminate|].
    unfold bind at 1, lift at 1.
    destruct (Duckdb.draw ms r2) as [e|ls] eqn:H3; [discriminate|].
    unfold bind at 1, savefig.
    destruct (is_dir cwd Duckdb.out_path) eqn:Hout; [discriminate|].
    unfold print. intros [= <-]. cbn [stdout images].
    exists w1, r1, r2, ls. repeat split; auto.
  - intros (w1 & r1 & r2 & ls & Hroot & H1 & H2 & Hmk & H3 & Hout & ->).
    rewrite Hroot. cbn [negb]. unfold bind at 1. rewrite H1.
    unfold bind at 1, lift at 1. rewrite H2.
    unfold bind at 1, lift at 1. rewrite Hmk.
    unfold bind at 1, lift at 1. rewrite H3.
    unfold bind at 1, savefig. rewrite Hout. reflexivity.
Qed.

End DuckdbTable.

Lemma Forall2_conj {A B} (P Q : A -> B -> Prop) (l : list A) (l' : list B) :
  Forall2 P l l' -> Forall2 Q l l' -> Forall2 (fun a b => P a b /\ Q a b) l l'.
Proof.
  intros HP. induction HP as [|a b l l' Hab _ IH]; intros HQ;
    inversion HQ; subst; constructor; auto.
Qed.

(** X9: the second pass of [plot_duckdb_write_bench], which rewrites the
    stored times in place, succeeds on every table that holds a dict with
    distinct sizes for each of the distinct modes, and amounts to
    normalizing every stored time once: sizes and their order are kept, and
    a mode outside the list is left alone. *)
Theorem rescale_normalizes_every_time (ms : list string)
    (results : Duckdb.table) :
  NoDup ms ->
  (forall m, In m ms -> exists inner, slookup m results = Some inner) ->
  (forall m inner, slookup m results = Some inner -> NoDup (keys inner)) ->
  exists results',
    Duckdb.rescale ms results = inr results' /\
    forall m inner,
      slookup m results = Some inner ->
      keys (normalized inner) = keys inner /\
      values (normalized inner) = map normalize (values inner) /\
      (In m ms -> slookup m results' = Some (normalized inner)) /\
      (~ In m ms -> slookup m results' = Some inner).
Proof.
  intros Hnd Hm Hkeys.
  destruct (rescale_total ms results Hnd Hm Hkeys) as (results' & Hrun & Hres).
  exists results'. split; [exact Hrun|]. intros m inner Hin.
  split; [apply keys_normalized|]. split.
  - unfold values, normalized. now rewrite !map_map.
  - now apply Hres.
Qed.

Lemma rescale_normalizes_every_time_witness :
  exists results',
    Duckdb.rescale ["appender_direct"] raw_times = inr results' /\
    slookup "appender_direct" results' =
    Some [(10000%Z, 0.0037%float); (50000%Z, 0.0042%float);
          (200000%Z, 2.5%float)] /\
    slookup "csv_copy" results' = Some [(50000%Z, 4200%float)].
Proof.
  destruct (rescale_normalizes_every_time ["appender_direct"] raw_times)
    as (results' & Hrun & Hres).
  - repeat constructor. simpl. tauto.
  - intros m [<-|[]]. eexists. reflexivity.
  - intros m inner.
    destruct (String.eqb_spec m "appender_direct") as [->|H1].
    { intros [= <-]. repeat constructor; simpl; intuition discriminate. }
    destruct (String.eqb_spec m "csv_copy") as [->|H2].
    { intros [= <-]. repeat constructor; simpl; intuition discriminate. }
    unfold slookup, raw_times. cbn [lookup].
    rewrite (proj2 (String.eqb_neq _ _) H1), (proj2 (String.eqb_neq _ _) H2).
    discriminate.
  - exists results'. split; [exact Hrun|]. split.
    + apply (Hres "appender_direct" _ eq_refl). now left.
    + apply (Hres "csv_copy" _ eq_refl). simpl. intuition discriminate.
Defined.

(** ** Unit normalizer: the rule, and the pass that applies it in place *)

Lemma lookup_normalized_some s (d : dict Z float) t :
  lookup Z.eqb s d = Some t ->
  lookup Z.eqb s (normalized d) = Some (normalize t).
Proof.
  induction d as [|[s' t'] d IH]; simpl; [discriminate|].
  destruct (Z.eqb s s'); [|exact IH].
  now intros [= <-].
Qed.

(** C2: the normalizer divides by 1e9 above 1,000,000, by 1e6 above 1,000 up
    to 1,000,000, and leaves a value up to 1,000 alone; 2,500,000,000 becomes
    2.5, 4,200 becomes 0.0042 and 0.0037 stays 0.0037 (the raw values read
    from JSON integers convert to the same floats).  The second pass of
    [plot_duckdb_write_bench], which rewrites [results[m][s]] in place,
    applies this very rule: on a table holding a dict with distinct sizes
    for each of the distinct modes it succeeds, keeps the sizes in their
    order, and leaves the normalized time where each raw time was. *)
Theorem normalize_by_magnitude :
  (forall v : float,
     ((1e6 <? v)%float = true -> normalize v = (v / 1e9)%float) /\
     ((1e3 <? v)%float = true -> (v <=? 1e6)%float = true ->
      normalize v = (v / 1e6)%float) /\
     ((v <=? 1e3)%float = true -> normalize v = v)) /\
  normalize 2500000000 = 2.5%float /\
  normalize 4200 = 0.0042%float /\
  normalize 0.0037 = 0.0037%float /\
  float_of_int 2500000000 = inr 2500000000%float /\
  float_of_int 4200 = inr 4200%float /\
  (forall (ms : list string) (results : Duckdb.table),
     NoDup ms ->
     (forall m, In m ms -> exists inner, slookup m results = Some inner) ->
     (forall m inner, slookup m results = Some inner -> NoDup (keys inner)) ->
     exists results',
       Duckdb.rescale ms results = inr results' /\
       forall m inner,
         In m ms -> slookup m results = Some inner ->
         exists inner',
           slookup m results' = Some inner' /\
           keys inner' = keys inner /\
           forall s t,
             lookup Z.eqb s inner = Some t ->
             lookup Z.eqb s inner' = Some (normalize t)).
Proof.
  split; [|repeat split; try reflexivity].
  - intros v. split; [apply normalize_ns|].
    split; [apply normalize_us|apply normalize_s].
  - intros ms results Hnd Hm Hkeys.
    destruct (rescale_total ms results Hnd Hm Hkeys)
      as (results' & Hrun & Hres).
    exists results'. split; [exact Hrun|]. intros m inner Hin Hinner.
    exists (normalized inner). split; [now apply (Hres m inner Hinner)|].
    split; [apply keys_normalized|].
    intros s t. apply lookup_normalized_some.
Qed.

Lemma normalize_by_magnitude_witness :
  exists results' inner',
    Duckdb.rescale ["appender_direct"; "csv_copy"] raw_times = inr results' /\
    slookup "appender_direct" results' = Some inner' /\
    keys inner' = [10000; 50000; 200000]%Z /\
    lookup Z.eqb 200000%Z inner' = Some 2.5%float /\
    lookup Z.eqb 50000%Z inner' = Some 0.0042%float /\
    lookup Z.eqb 10000%Z inner' = Some 0.0037%float.
Proof.
  destruct normalize_by_magnitude as (_ & _ & _ & _ & _ & _ & H).
  destruct (H ["appender_direct"; "csv_copy"] raw_times)
    as (results' & Hrun & Hres).
  - repeat constructor; simpl; intuition discriminate.
  - intros m [<-|[<-|[]]]; eexists; reflexivity.
  - intros m inner.
    destruct (String.eqb_spec m "appender_direct") as [->|H1].
    { intros [= <-]. repeat constructor; simpl; intuition discriminate. }
    destruct (String.eqb_spec m "csv_copy") as [->|H2].
    { intros [= <-]. repeat constructor; simpl; intuition discriminate. }
    unfold slookup, raw_times. cbn [lookup].
    rewrite (proj2 (String.eqb_neq _ _) H1), (proj2 (String.eqb_neq _ _) H2).
    discriminate.
  - destruct (Hres "appender_direct" _ (or_introl eq_refl) eq_refl)
      as (inner' & Hs & Hk & Hv).
    exists results', inner'. split; [exact Hrun|]. split; [exact Hs|].
    split; [exact Hk|]. split; [|split].
    + exact (Hv 200000%Z 2500000000%float eq_refl).
    + exact (Hv 50000%Z 4200%float eq_refl).
    + exact (Hv 10000%Z 0.0037%float eq_refl).
Defined.

(** X10: the chart of a finished [plot_duckdb_write_bench] run has one line
    per mode, in the order of the modes and labelled by them; a line has
    one value per size, no size twice, and only sizes of the list. *)
Theorem duckdb_lines_follow_modes {conv : Conversions} (cwd : node)
    (ms : list string) (ss : list Z) (w w' : world) :
  NoDup ms ->
  Duckdb.run cwd ms ss w = (w', inr tt) ->
  exists ls,
    images w' = images w ++ [(Duckdb.out_path, Lines true ls)] /\
    Forall2 (fun m l =>
               label l = Some m /\ NoDup (xs l) /\ incl (xs l) ss /\
               List.length (ys l) = List.length (xs l)) ms ls.
Proof.
  intros Hnd Hrun. apply duckdb_finished_iff in Hrun.
  destruct Hrun as (w1 & r1 & r2 & ls & _ & H1 & H2 & _ & H3 & _ & ->).
  destruct (duckdb_collect_raw cwd _ _ _ _ _ _ (raw_table_empty cwd ms) H1)
    as [Himg Hraw].
  destruct (duckdb_collect_trace cwd _ _ _ _ _ _ H1) as [_ Hbwd].
  exists ls. cbn [images]. split; [now rewrite Himg|].
  pose proof (Forall2_conj _ _ _ _ (duckdb_lines_ascending ms r2 ls H3)
                (draw_lines ms r2 ls H3)) as Hls.
  eapply Forall2_impl_In; [|exact Hls].
  intros m l Hin [(Hlabel & _ & inner2 & Hm2 & Hperm) (_ & inner2' & Hm2' & Hpts)].
  rewrite Hm2 in Hm2'. injection Hm2' as <-.
  destruct (rescale_spec ms r1 r2 Hnd (fun m i H => proj1 (Hraw m i H))
              H2 m inner2 Hm2) as (inner1 & Hm1 & Hnorm & _).
  specialize (Hnorm Hin). subst inner2. rewrite keys_normalized in Hperm.
  destruct (Hbwd m inner1 Hm1) as (inner0 & Hm0 & Hincl).
  apply empty_table_lookup in Hm0. subst inner0. cbn [keys map app] in Hincl.
  split; [exact Hlabel|]. split.
  - eapply Permutation_NoDup; [apply Permutation_sym; exact Hperm|].
    apply (Hraw m inner1 Hm1).
  - split.
    + intros x Hx. apply Hincl. eapply Permutation_in; [exact Hperm|exact Hx].
    + symmetry. exact (Forall2_length Hpts).
Qed.

(** X11: [plot_duckdb_write_bench] finishes, with exit status 0, whenever
    its root exists, no located result file is unreadable, the output
    directory can be made and the image path is not a directory: none of
    its dict lookups can fail. *)
Theorem duckdb_run_finishes {conv : Conversions} (cwd : node)
    (ms : list string) (ss : list Z) (w : world) :
  exists_ cwd Duckdb.root = true ->
  NoDup ms ->
  (forall m s e, In m ms -> In s ss ->
                 ~ unreadable cwd (Duckdb.root ++ [m; str_of_int s]) e) ->
  mkdir_parents cwd Duckdb.out_dir = inr tt ->
  is_dir cwd Duckdb.out_path = false ->
  exists w',
    Duckdb.run cwd ms ss w = (w', inr tt) /\
    exit_status (snd (Duckdb.run cwd ms ss w)) = 0%Z.
Proof.
  intros Hroot Hnd Hok Hmk Hout.
  destruct (duckdb_collect_total cwd ms ss (Duckdb.empty_table ms) w
              (empty_table_has_modes ms) Hok) as (w1 & r1 & H1).
  destruct (duckdb_collect_raw cwd _ _ _ _ _ _ (raw_table_empty cwd ms) H1)
    as [_ Hraw].
  destruct (duckdb_collect_trace cwd _ _ _ _ _ _ H1) as [Hfwd _].
  assert (Hm1 : forall m, In m ms -> exists inner, slookup m r1 = Some inner).
  { intros m Hin. destruct (empty_table_has_modes ms m Hin) as [inner0 H0].
    now apply Hfwd with inner0. }
  destruct (rescale_total ms r1 Hnd Hm1 (fun m i H => proj1 (Hraw m i H)))
    as (r2 & H2 & Hres).
  destruct (draw_total ms r2) as (ls & H3).
  { intros m Hin. destruct (Hm1 m Hin) as [inner Hinner].
    exists (normalized inner). now apply (Hres m inner Hinner). }
  assert (Hmain : Duckdb.run cwd ms ss w =
    ({| stdout := stdout w1 ++ [("Wrote " ++ path_str Duckdb.out_path)%string];
        images := images w1 ++ [(Duckdb.out_path, Lines true ls)] |}, inr tt)).
  { apply duckdb_finished_iff. exists w1, r1, r2, ls. repeat split; auto. }
  eexists. split; [exact Hmain|]. now rewrite Hmain.
Qed.

Lemma duckdb_lines_follow_modes_witness :
  exists ls,
    [(Duckdb.out_path,
      Lines true
        [{| label := Some "appender_direct";
            xs := [10000; 50000; 200000]%Z;
            ys := [0.0037; 0.0042; 2.5]%float |};
         {| label := Some "in_memory_ctas"; xs := []; ys := [] |};
         {| label := Some "csv_copy"; xs := [50000%Z]; ys := [0.3%float] |}])] =
    [] ++ [(Duckdb.out_path, Lines true ls)] /\
    Forall2 (fun m l =>
               label l = Some m /\ NoDup (xs l) /\ incl (xs l) Duckdb.sizes /\
               List.length (ys l) = List.length (xs l)) Duckdb.modes ls.
Proof.
  apply (duckdb_lines_follow_modes (conv := numerals_only) write_modes
    Duckdb.modes Duckdb.sizes start
    {| stdout := ["Missing file for in_memory_ctas 10000";
                  "Missing file for in_memory_ctas 50000";
                  "Missing file for in_memory_ctas 200000";
                  "Missing file for csv_copy 10000";
                  "Missing file for csv_copy 200000";
                  "Wrote docs/bench_results/duckdb_write_modes.png"];
       images :=
         [(Duckdb.out_path,
           Lines true
             [{| label := Some "appender_direct";
                 xs := [10000; 50000; 200000]%Z;
                 ys := [0.0037; 0.0042; 2.5]%float |};
              {| label := Some "in_memory_ctas"; xs := []; ys := [] |};
              {| label := Some "csv_copy"; xs := [50000%Z];
                 ys := [0.3%float] |}])] |}).
  - unfold Duckdb.modes. repeat constructor; cbn [In]; intuition discriminate.
  - vm_compute. reflexivity.
Defined.

Lemma duckdb_run_finishes_witness :
  exists w',
    Duckdb.run (conv := numerals_only) write_modes Duckdb.modes Duckdb.sizes
      start = (w', inr tt) /\
    exit_status
      (snd (Duckdb.run (conv := numerals_only) write_modes Duckdb.modes
              Duckdb.sizes start)) = 0%Z.
Proof.
  apply (duckdb_run_finishes (conv := numerals_only) write_modes
           Duckdb.modes Duckdb.sizes start).
  - reflexivity.
  - unfold Duckdb.modes. repeat constructor; cbn [In]; intuition discriminate.
  - intros m s e Hm Hs (p & Hp & H).
    destruct Hm as [<-|[<-|[<-|[]]]]; destruct Hs as [<-|[<-|[<-|[]]]];
      vm_compute in Hp; try discriminate; injection Hp as <-;
      (destruct H as [H|(doc & H & _ & H')];
       [vm_compute in H; discriminate|]);
      vm_compute in H; injection H as <-; vm_compute in H'; discriminate.
  - reflexivity.
  - reflexivity.
Defined.

(** ** [plot_sqllog_varied]: series and groups *)

Section VariedGroups.
Context {conv : Conversions} {mpl : Matplotlib} (cwd : node).

Lemma append_size_length d sizes :
  List.length (Varied.append_size d sizes) = S (List.length sizes).
Proof.
  unfold Varied.append_size.
  destruct (int_of_str d); rewrite length_app; simpl; lia.
Qed.

(** The loop of [extract_series] prints and saves nothing, also when it
    ends in an exception. *)
Lemma varied_series_loop_silent base ds : forall sizes vals w,
  fst (Varied.series_loop cwd base ds sizes vals w) = w.
Proof.
  induction ds as [|d rest IH]; intros sizes vals w; [reflexivity|].
  destruct (is_dir cwd (base ++ [d])) eqn:Hd.
  2:{ now rewrite (varied_step_not_dir cwd base d rest sizes vals w Hd). }
  destruct (case_outcome cwd (base ++ [d])) as [H|[H|[[t H]|[e H]]]].
  - now rewrite (varied_step_no_file cwd base d rest sizes vals w Hd H).
  - now rewrite (varied_step_no_estimate cwd base d rest sizes vals w Hd H).
  - now rewrite (varied_step_measured cwd base d rest sizes vals w t Hd H).
  - now rewrite (varied_step_unreadable cwd base d rest sizes vals w e Hd H).
Qed.

Lemma varied_series_lengths base ds : forall sizes vals w w' sizes' vals',
  Varied.series_loop cwd base ds sizes vals w = (w', inr (sizes', vals')) ->
  List.length sizes = List.length vals ->
  List.length sizes' = List.length vals' /\
  List.length vals' <= List.length vals + List.length ds.
Proof.
  induction ds as [|d rest IH]; intros sizes vals w w' sizes' vals'.
  - intros [= <- <- <-] H. simpl. lia.
  - assert (Hskip :
      Varied.series_loop cwd base rest sizes vals w = (w', inr (sizes', vals')) ->
      List.length sizes = List.length vals ->
      List.length sizes' = List.length vals' /\
      List.length vals' <= List.length vals + List.length (d :: rest)).
    { intros Hrun Hlen. destruct (IH _ _ _ _ _ _ Hrun Hlen). simpl. lia. }
    destruct (is_dir cwd (base ++ [d])) eqn:Hd.
    2:{ now rewrite (varied_step_not_dir cwd base d rest sizes vals w Hd). }
    destruct (case_outcome cwd (base ++ [d])) as [H|[H|[[t H]|[e H]]]].
    + now rewrite (varied_step_no_file cwd base d rest sizes vals w Hd H).
    + now rewrite (varied_step_no_estimate cwd base d rest sizes vals w Hd H).
    + rewrite (varied_step_measured cwd base d rest sizes vals w t Hd H).
      intros Hrun Hlen. apply IH in Hrun.
      * rewrite length_app in Hrun. simpl in *. lia.
      * rewrite append_size_length, length_app. simpl. lia.
    + rewrite (varied_step_unreadable cwd base d rest sizes vals w e Hd H).
      discriminate.
Qed.

(** What [extract_series] returns, by whether the group directory exists. *)
Lemma varied_extract_series_cases group w :
  (exists_ cwd (Varied.root ++ [group]) = false /\
   Varied.extract_series cwd group w =
   (logged ("No group " ++ group) w, inr None)) \/
  (exists_ cwd (Varied.root ++ [group]) = true /\
   ((exists e, Varied.extract_series cwd group w = (w, inl e)) \/
    (exists sizes vals,
       Varied.extract_series cwd group w = (w, inr (Some (sizes, vals)))))).
Proof.
  destruct (exists_ cwd (Varied.root ++ [group])) eqn:Hex.
  2:{ left. split; [reflexivity|]. now apply varied_group_missing. }
  right. split; [reflexivity|].
  assert (E : Varied.extract_series cwd group w =
    match iterdir cwd (Varied.root ++ [group]) with
    | inl e => (w, inl e)
    | inr children =>
        match Varied.series_loop cwd (Varied.root ++ [group])
                (Varied.visit_order children) [] [] w with
        | (w1, inr series) => (w1, inr (Some series))
        | (w1, inl e) => (w1, inl e)
        end
    end).
  { unfold Varied.extract_series. rewrite Hex. cbn [negb].
    unfold bind at 1, lift at 1.
    destruct (iterdir cwd (Varied.root ++ [group])); [reflexivity|].
    unfold bind at 1.
    destruct (Varied.series_loop cwd _ _ [] [] w) as [w1 [e|series]];
      reflexivity. }
  rewrite E. clear E.
  destruct (iterdir cwd (Varied.root ++ [group])) as [e|children].
  { left. now exists e. }
  pose proof (varied_series_loop_silent (Varied.root ++ [group])
                (Varied.visit_order children) [] [] w) as Hw.
  destruct (Varied.series_loop cwd _ _ [] [] w) as [w1 [e|[sizes vals]]];
    cbn [fst] in Hw; subst w1.
  - left. now exists e.
  - right. now exists sizes, vals.
Qed.

End VariedGroups.

(** X13: the series [extract_series] returns is aligned: as many sizes as
    values, at most one point per directory entry; and building it prints
    and saves nothing. *)
Theorem varied_series_is_aligned {conv : Conversions} (cwd : node)
    (group : string) (w w' : world) (sizes : list Z) (vals : list float) :
  Varied.extract_series cwd group w = (w', inr (Some (sizes, vals))) ->
  w' = w /\
  List.length sizes = List.length vals /\
  exists children,
    iterdir cwd (Varied.root ++ [group]) = inr children /\
    List.length vals <= List.length children.
Proof.
  unfold Varied.extract_series.
  destruct (exists_ cwd (Varied.root ++ [group])); [|discriminate].
  cbn [negb]. unfold bind at 1, lift at 1.
  destruct (iterdir cwd (Varied.root ++ [group])) as [e|children];
    [discriminate|].
  unfold bind at 1.
  pose proof (varied_series_loop_silent cwd (Varied.root ++ [group])
                (Varied.visit_order children) [] [] w) as Hw.
  destruct (Varied.series_loop cwd _ _ [] [] w) as [w1 [e|[sizes1 vals1]]] eqn:Hrun;
    [discriminate|].
  cbn [fst] in Hw. intros [= <- <- <-]. split; [exact Hw|].
  destruct (varied_series_lengths cwd _ _ _ _ _ _ _ _ Hrun eq_refl) as [H1 H2].
  split; [exact H1|]. exists children. split; [reflexivity|].
  unfold Varied.visit_order in H2.
  rewrite (Permutation_length (sorted_perm id String.leb children)) in H2.
  exact H2.
Qed.

Lemma varied_series_is_aligned_witness :
  List.length [0; 1]%Z = List.length [0.25; 0.01]%float /\
  exists children,
    iterdir sweep_with_words (Varied.root ++ ["sqllog_write_file"]) =
    inr children /\
    List.length [0.25; 0.01]%float <= List.length children.
Proof.
  apply (varied_series_is_aligned (conv := numerals_only) sweep_with_words
           "sqllog_write_file" start start).
  reflexivity.
Defined.

(** X14: a finished [plot_sqllog_varied] loop saves exactly one image for
    every group whose directory exists, at [docs/bench_results/<group>.png]
    and in the order of the groups, even when the group has no point; it
    prints one line per group, ["No group ..."] for a missing one. *)
Theorem varied_one_image_per_group {conv : Conversions} (cwd : node)
    (gs : list string) (w w' : world) :
  Varied.plot_groups cwd gs w = (w', inr tt) ->
  map fst (images w') =
  map fst (images w) ++
  map group_image (filter (fun g => exists_ cwd (Varied.root ++ [g])) gs) /\
  stdout w' = stdout w ++ map (group_line cwd) gs.
Proof.
  revert w. induction gs as [|g rest IH]; intros w.
  - intros [= <-]. simpl. now rewrite !app_nil_r.
  - cbn [Varied.plot_groups]. unfold bind at 1.
    destruct (varied_extract_series_cases cwd g w)
      as [[Hex Hg]|[Hex [[e Hg]|(sizes & vals & Hg)]]]; rewrite Hg.
    + intros Hrun. apply IH in Hrun. destruct Hrun as [Himg Hout].
      cbn [filter map]. unfold group_line at 1. rewrite Hex.
      cbn [logged images stdout] in *.
      split; [exact Himg|]. now rewrite Hout, <- app_assoc.
    + discriminate.
    + unfold bind at 1, savefig.
      destruct (is_dir cwd _); [discriminate|].
      unfold bind at 1, print. intros Hrun. apply IH in Hrun.
      destruct Hrun as [Himg Hout].
      cbn [filter map]. unfold group_line at 1. rewrite Hex.
      cbn [images stdout map] in *.
      rewrite map_app in Himg. cbn [map fst] in Himg. split.
      * now rewrite Himg, <- app_assoc.
      * now rewrite Hout, <- app_assoc.
Qed.

Lemma varied_one_image_per_group_witness :
  map fst
    [(["docs"; "bench_results"; "sqllog_write_file.png"],
      Lines true [{| label := None; xs := [0; 1]%Z;
                     ys := [0.25; 0.01]%float |}])] =
  map fst (images start) ++
  map group_image
    (filter (fun g => exists_ sweep_with_words (Varied.root ++ [g]))
       Varied.groups) /\
  ["Wrote docs/bench_results/sqllog_write_file.png";
   "No group sqllog_parse_file"] =
  stdout start ++ map (group_line sweep_with_words) Varied.groups.
Proof.
  apply (varied_one_image_per_group (conv := numerals_only) sweep_with_words
    Varied.groups start
    {| stdout := ["Wrote docs/bench_results/sqllog_write_file.png";
                  "No group sqllog_parse_file"];
       images :=
         [(["docs"; "bench_results"; "sqllog_write_file.png"],
           Lines true [{| label := None; xs := [0; 1]%Z;
                          ys := [0.25; 0.01]%float |}])] |}).
  vm_compute. reflexivity.
Defined.

Section VariedTotal.
Context {conv : Conversions} {mpl : Matplotlib} (cwd : node).

Lemma varied_series_loop_total base ds : forall sizes vals w,
  (forall d e, In d ds -> ~ unreadable cwd (base ++ [d]) e) ->
  exists sizes' vals',
    Varied.series_loop cwd base ds sizes vals w = (w, inr (sizes', vals')).
Proof.
  induction ds as [|d rest IH]; intros sizes vals w Hok.
  - now exists sizes, vals.
  - assert (Hrest : forall d0 e, In d0 rest -> ~ unreadable cwd (base ++ [d0]) e)
      by (intros d0 e Hin; apply Hok; now right).
    destruct (is_dir cwd (base ++ [d])) eqn:Hd.
    2:{ rewrite (varied_step_not_dir cwd base d rest sizes vals w Hd).
        now apply IH. }
    destruct (case_outcome cwd (base ++ [d])) as [H|[H|[[t H]|[e H]]]].
    + rewrite (varied_step_no_file cwd base d rest sizes vals w Hd H).
      now apply IH.
    + rewrite (varied_step_no_estimate cwd base d rest sizes vals w Hd H).
      now apply IH.
    + rewrite (varied_step_measured cwd base d rest sizes vals w t Hd H).
      now apply IH.
    + exfalso. apply (Hok d e); [now left|exact H].
Qed.

End VariedTotal.

(** X15: what [extract_series] does depends on what the group path is.  A
    missing path gives [None] after one printed line; a regular file makes
    the directory listing raise [NotADirectoryError]; a directory in which
    no located result file is unreadable gives a series, and nothing is
    printed. *)
Theorem extract_series_by_group_kind {conv : Conversions} (cwd : node)
    (group : string) (w : world) :
  (resolve cwd (Varied.root ++ [group]) = None ->
   Varied.extract_series cwd group w =
   (logged ("No group " ++ group) w, inr None)) /\
  (forall doc,
     resolve cwd (Varied.root ++ [group]) = Some (File doc) ->
     Varied.extract_series cwd group w = (w, inl NotADirectoryError)) /\
  (forall entries,
     resolve cwd (Varied.root ++ [group]) = Some (Dir entries) ->
     (forall d e, In d (keys entries) ->
                  ~ unreadable cwd (Varied.root ++ [group; d]) e) ->
     exists sizes vals,
       Varied.extract_series cwd group w = (w, inr (Some (sizes, vals)))).
Proof.
  split; [|split].
  - intros H. apply varied_group_missing. unfold exists_. now rewrite H.
  - intros doc H. unfold Varied.extract_series, exists_, iterdir.
    now rewrite H.
  - intros entries H Hok.
    destruct (varied_series_loop_total cwd (Varied.root ++ [group])
                (Varied.visit_order (keys entries)) [] [] w)
      as (sizes & vals & Hrun).
    { intros d e Hin. rewrite <- app_assoc. apply Hok.
      unfold Varied.visit_order in Hin.
      now apply (Permutation_in _ (sorted_perm id String.leb _)) in Hin. }
    exists sizes, vals. unfold Varied.extract_series, exists_, iterdir.
    rewrite H. cbn [negb]. unfold bind at 1, lift at 1.
    unfold bind at 1. now rewrite Hrun.
Qed.

Lemma extract_series_by_group_kind_witness :
  exists sizes vals,
    Varied.extract_series (conv := numerals_only) sweep_with_words
      "sqllog_write_file" start = (start, inr (Some (sizes, vals))).
Proof.
  destruct (extract_series_by_group_kind (conv := numerals_only)
              sweep_with_words "sqllog_write_file" start) as (_ & _ & H).
  eapply H.
  - reflexivity.
  - intros d e Hin (p & Hp & Hu).
    destruct Hin as [<-|[<-|[<-|[]]]]; vm_compute in Hp;
      try discriminate; injection Hp as <-;
      (destruct Hu as [Hu|(doc & Hu & _ & Hu')];
       [vm_compute in Hu; discriminate|]);
      vm_compute in Hu; injection Hu as <-; vm_compute in Hu'; discriminate.
Defined.
